(** * RSI backtesting tool: a shallow embedding of [subcode/calculation.py]
      and of the driver [BacktestApp.run_backtest] of [subcode/app.py].

    Numbers.  The program computes on IEEE doubles.  The embedding keeps the
    special values of that arithmetic ([inf], [-inf], [nan]) because the
    program relies on them ([x / 0], [fillna], comparisons against a shifted
    column), and replaces the finite doubles by exact rationals: rounding is
    not modelled, and [-0.0] is identified with [0.0].  One property of the
    simulator is decided by rounding, the sign of the cash after a buy: for
    it the module [Doubles] evaluates the cash and the holdings of the loop
    on binary64 numbers, with numpy's floor division.

    Data frames.  A pandas DataFrame is represented by the columns a function
    reads; all columns of one frame have the length of its index. *)

From Stdlib Require Import String Ascii.
From Stdlib Require Import QArith Qround ZArith List Bool Lia Lqa.
From Stdlib Require PrimFloat SpecFloat FloatOps.
Import ListNotations.

Local Open Scope Q_scope.

(** ** Extended rationals: the values of a float cell *)

Module Float.

Inductive fval : Type :=
| Fin (q : Q)
| PInf
| NInf
| NaN.

Definition Qlt_bool (a b : Q) : bool := negb (Qle_bool b a).

Definition isnan (x : fval) : bool :=
  match x with NaN => true | _ => false end.

(** Comparisons: every comparison with [nan] is false, except [!=]. *)

Definition flt (x y : fval) : bool :=
  match x, y with
  | NaN, _ | _, NaN => false
  | Fin a, Fin b => Qlt_bool a b
  | _, NInf => false
  | NInf, _ => true
  | PInf, _ => false
  | Fin _, PInf => true
  end.

Definition fle (x y : fval) : bool :=
  match x, y with
  | NaN, _ | _, NaN => false
  | Fin a, Fin b => Qle_bool a b
  | NInf, _ => true
  | _, PInf => true
  | PInf, _ => false
  | Fin _, NInf => false
  end.

Definition fgt (x y : fval) : bool := flt y x.
Definition fge (x y : fval) : bool := fle y x.

Definition feqb (x y : fval) : bool :=
  match x, y with
  | Fin a, Fin b => Qeq_bool a b
  | PInf, PInf | NInf, NInf => true
  | _, _ => false
  end.

Definition fne (x y : fval) : bool := negb (feqb x y).

(** Arithmetic. *)

Definition fneg (x : fval) : fval :=
  match x with
  | Fin a => Fin (- a)
  | PInf => NInf
  | NInf => PInf
  | NaN => NaN
  end.

Definition fadd (x y : fval) : fval :=
  match x, y with
  | NaN, _ | _, NaN => NaN
  | Fin a, Fin b => Fin (a + b)
  | PInf, NInf | NInf, PInf => NaN
  | PInf, _ | _, PInf => PInf
  | NInf, _ | _, NInf => NInf
  end.

Definition fsub (x y : fval) : fval := fadd x (fneg y).

(** [inf] with the sign of [a]; [0 * inf] is [nan]. *)
Definition signed_inf (a : Q) : fval :=
  match a ?= 0 with
  | Gt => PInf
  | Lt => NInf
  | Eq => NaN
  end.

Definition fmul (x y : fval) : fval :=
  match x, y with
  | NaN, _ | _, NaN => NaN
  | Fin a, Fin b => Fin (a * b)
  | Fin a, PInf | PInf, Fin a => signed_inf a
  | Fin a, NInf | NInf, Fin a => signed_inf (- a)
  | PInf, PInf | NInf, NInf => PInf
  | PInf, NInf | NInf, PInf => NInf
  end.

(** Division of floats never raises: [x / 0] is [inf], [-inf] or [nan]. *)
Definition fdiv (x y : fval) : fval :=
  match x, y with
  | NaN, _ | _, NaN => NaN
  | Fin a, Fin b => if Qeq_bool b 0 then signed_inf a else Fin (a / b)
  | Fin _, (PInf | NInf) => Fin 0
  | PInf, Fin b => if Qlt_bool b 0 then NInf else PInf
  | NInf, Fin b => if Qlt_bool b 0 then PInf else NInf
  | (PInf | NInf), (PInf | NInf) => NaN
  end.

(** Equality of cells up to the representation of the rational. *)
Definition feq (x y : fval) : Prop :=
  match x, y with
  | Fin a, Fin b => a == b
  | PInf, PInf | NInf, NInf | NaN, NaN => True
  | _, _ => False
  end.

Definition finite (x : fval) : option Q :=
  match x with Fin q => Some q | _ => None end.

End Float.
Import Float.

Coercion Fin : Q >-> fval.

(** ** Series operations of pandas used by the program *)

Module Series.

(** Element-wise binary operation on two columns of one frame. *)
Definition map2 {A B C} (f : A -> B -> C) (xs : list A) (ys : list B) : list C :=
  map (fun p => f (fst p) (snd p)) (combine xs ys).

(** [s.shift(1)]: every value moves one row down, row 0 becomes [nan]. *)
Definition shift (xs : list fval) : list fval :=
  firstn (length xs) (NaN :: xs).

(** [s.diff()] is [s - s.shift(1)]. *)
Definition diff (xs : list fval) : list fval :=
  map2 fsub xs (shift xs).

(** [s.where(cond, other)]. *)
Definition where_ (cond : list bool) (other : fval) (xs : list fval) : list fval :=
  map2 (fun x (c : bool) => if c then x else other) xs cond.

(** [s.fillna(v)]. *)
Definition fillna (v : fval) (xs : list fval) : list fval :=
  map (fun x => if isnan x then v else x) xs.

Definition dropna (xs : list fval) : list fval :=
  filter (fun x => negb (isnan x)) xs.

Definition fsum (xs : list fval) : fval := fold_right fadd (Fin 0) xs.

Definition of_nat (n : nat) : fval := Fin (inject_Z (Z.of_nat n)).

(** [mean()] skips [nan]; it is [nan] when fewer than [min_periods]
    observations remain. *)
Definition mean_min (min_periods : nat) (xs : list fval) : fval :=
  let ys := dropna xs in
  if (min_periods <=? length ys)%nat
  then fdiv (fsum ys) (of_nat (length ys))
  else NaN.

(** The rows [t-window+1 .. t] of a column (fewer at the start). *)
Definition window_at {A} (window t : nat) (xs : list A) : list A :=
  skipn (S t - window) (firstn (S t) xs).

(** [s.rolling(window, min_periods).mean()]. *)
Definition rolling_mean (window min_periods : nat) (xs : list fval) : list fval :=
  map (fun t => mean_min min_periods (window_at window t xs))
      (seq 0 (length xs)).

(** [data.loc[mask, col] = v]. *)
Definition loc_assign {A} (mask : list bool) (v : A) (col : list A) : list A :=
  map2 (fun x (m : bool) => if m then v else x) col mask.

End Series.
Import Series.

(** ** Exceptions *)

Inductive exn : Type :=
| ValueError (msg : string)
| KeyError (key : string)
| IndexError
| OverflowError
| NotModelled (what : string).

Inductive result (A : Type) : Type :=
| Ok (a : A)
| Raise (e : exn).
Arguments Ok {A} a.
Arguments Raise {A} e.

Definition bind {A B} (r : result A) (k : A -> result B) : result B :=
  match r with
  | Ok a => k a
  | Raise e => Raise e
  end.

Notation "x <- r ;; k" := (bind r (fun x => k))
  (at level 61, r at next level, right associativity).

(** ** calculate_rsi *)

Definition rsi_delta (close : list Q) : list fval := diff (map Fin close).

Definition rsi_gain (close : list Q) : list fval :=
  let delta := rsi_delta close in
  fillna 0 (where_ (map (fun d => fgt d 0) delta) 0 delta).

Definition rsi_loss (close : list Q) : list fval :=
  let delta := rsi_delta close in
  fillna 0 (map fneg (where_ (map (fun d => flt d 0) delta) 0 delta)).

Definition rsi_avg_gain (close : list Q) (period : nat) : list fval :=
  rolling_mean period 1 (rsi_gain close).

Definition rsi_avg_loss (close : list Q) (period : nat) : list fval :=
  rolling_mean period 1 (rsi_loss close).

(** [100 - 100 / (1 + rs)], on exact rationals: a cell of the program is the
    double nearest to each intermediate result. *)
Definition rsi_formula (rs : fval) : fval :=
  fsub 100 (fdiv 100 (fadd 1 rs)).

(** Returns the [RSI] column.  pandas refuses a rolling window smaller than
    [min_periods]. *)
Definition calculate_rsi (close : list Q) (period : nat) : result (list fval) :=
  if (period <? 1)%nat
  then Raise (ValueError "min_periods 1 must be <= window")
  else
    let avg_gain := rsi_avg_gain close period in
    let avg_loss := rsi_avg_loss close period in
    let rs := map2 fdiv avg_gain avg_loss in
    Ok (fillna 50 (map rsi_formula rs)).

(** ** generate_signals *)

Definition buy_signals (rsi : list fval) (rsi_oversold : fval) : list bool :=
  map2 (fun r p => fgt r rsi_oversold && fle p rsi_oversold) rsi (shift rsi).

Definition sell_signals (rsi : list fval) (rsi_overbought : fval) : list bool :=
  map2 (fun r p => flt r rsi_overbought && fge p rsi_overbought) rsi (shift rsi).

(** Returns the [Signal] column: 1 buy, -1 sell, 0 hold. *)
Definition generate_signals (rsi : list fval) (rsi_overbought rsi_oversold : fval)
  : list Z :=
  let signal := map (fun _ => 0%Z) rsi in
  let signal := loc_assign (buy_signals rsi rsi_oversold) 1%Z signal in
  let signal := loc_assign (sell_signals rsi rsi_overbought) (-1)%Z signal in
  signal.

(** ** backtest_strategy *)

(** A row of the frame handed to the simulator. *)
Record row : Type := mkRow {
  Close : Q;
  Signal : Z
}.

(** The local variables of the loop. *)
Record ledger : Type := mkLedger {
  cash : Q;
  holdings : Z;
  total_fees : Q;
  portfolio_values : list Q;
  positions : list Z;
  trades : list Z;
  daily_returns : list Q;
  prev_portfolio_value : Q
}.

Definition initial_ledger (initial_capital : Q) : ledger :=
  mkLedger initial_capital 0 0 [] [] [] [] initial_capital.

(** [int(cash // price)].  On numpy floats a floor division by zero gives
    [inf] or [nan], which [int] refuses.  For a non-zero price this is the
    floor of the exact quotient; the quotient of two doubles is rounded, can
    be one more than that floor and can overflow to [inf]: see
    [Doubles.floor_divide]. *)
Definition int_floordiv (a b : Q) : result Z :=
  if Qeq_bool b 0 then
    if Qeq_bool a 0
    then Raise (ValueError "cannot convert float NaN to integer")
    else Raise OverflowError
  else Ok (Qfloor (a / b)).

(** [positions[-1] if positions else 0]. *)
Definition last_position (ps : list Z) : Z := last ps 0%Z.

(** The [if / elif / else] of the loop body: the ledger after the signal has
    been acted on, and the trade marker. *)
Definition execute_signal (fee_percentage : Q) (st : ledger) (price : Q) (signal : Z)
  : result (ledger * Z) :=
  if ((signal =? 1) && (holdings st =? 0))%Z then
    shares <- int_floordiv (cash st) price ;;
    if (shares >? 0)%Z then
      let fee := inject_Z shares * price * fee_percentage in
      Ok (mkLedger (cash st - (inject_Z shares * price + fee))
                   (holdings st + shares)
                   (total_fees st + fee)
                   (portfolio_values st)
                   (positions st ++ [1%Z])
                   (trades st)
                   (daily_returns st)
                   (prev_portfolio_value st),
          1%Z)
    else Ok (st, 0%Z)
  else if ((signal =? -1) && (holdings st >? 0))%Z then
    let fee := inject_Z (holdings st) * price * fee_percentage in
    Ok (mkLedger (cash st + (inject_Z (holdings st) * price - fee))
                 0
                 (total_fees st + fee)
                 (portfolio_values st)
                 (positions st ++ [0%Z])
                 (trades st)
                 (daily_returns st)
                 (prev_portfolio_value st),
        (-1)%Z)
  else
    Ok (mkLedger (cash st) (holdings st) (total_fees st)
                 (portfolio_values st)
                 (positions st ++ [last_position (positions st)])
                 (trades st)
                 (daily_returns st)
                 (prev_portfolio_value st),
        0%Z).

(** The end of the loop body: the values recorded at every step. *)
Definition record_step (st : ledger) (price : Q) (trade : Z) : ledger :=
  let portfolio_value := cash st + inject_Z (holdings st) * price in
  let daily_return :=
    if negb (Qeq_bool (prev_portfolio_value st) 0)
    then (portfolio_value - prev_portfolio_value st) / prev_portfolio_value st
    else 0 in
  mkLedger (cash st) (holdings st) (total_fees st)
           (portfolio_values st ++ [portfolio_value])
           (positions st)
           (trades st ++ [trade])
           (daily_returns st ++ [daily_return])
           portfolio_value.

Definition step (fee_percentage : Q) (st : ledger) (r : row) : result ledger :=
  p <- execute_signal fee_percentage st (Close r) (Signal r) ;;
  Ok (record_step (fst p) (Close r) (snd p)).

Fixpoint backtest_loop (fee_percentage : Q) (st : ledger) (data : list row)
  : result ledger :=
  match data with
  | [] => Ok st
  | r :: rest => st' <- step fee_percentage st r ;; backtest_loop fee_percentage st' rest
  end.

(** The ledger once the rows [0 .. t] have been processed. *)
Definition ledger_after (data : list row) (initial_capital fee_percentage : Q) (t : nat)
  : result ledger :=
  backtest_loop fee_percentage (initial_ledger initial_capital) (firstn (S t) data).

(** [data[col] = values]: a list must have the length of the index. *)
Definition set_column {A} (index_len : nat) (values : list A) : result (list A) :=
  if (length values =? index_len)%nat
  then Ok values
  else Raise (ValueError "Length of values does not match length of index").

(** The frame returned by the simulator: the input rows and the new columns
    ([Total Fees] holds one scalar in every row). *)
Record backtest_frame : Type := mkFrame {
  Rows : list row;
  PortfolioValue : list Q;
  TotalFees : Q;
  Positions : list Z;
  Trades : list Z;
  StrategyDailyReturn : list Q
}.

Definition backtest_strategy (data : list row) (initial_capital fee_percentage : Q)
  : result backtest_frame :=
  st <- backtest_loop fee_percentage (initial_ledger initial_capital) data ;;
  pv <- set_column (length data) (portfolio_values st) ;;
  pos <- set_column (length data) (positions st) ;;
  tr <- set_column (length data) (trades st) ;;
  dr <- set_column (length data) (daily_returns st) ;;
  Ok (mkFrame data pv (total_fees st) pos tr dr).

(** The frame built by the first three stages of the driver. *)
Definition make_rows (close : list Q) (signal : list Z) : list row :=
  map2 mkRow close signal.

(** ** The cash and the holdings of the loop on binary64

    The same loop with the program's numbers: [cash], [price] and
    [fee_percentage] are doubles, [shares] and [holdings] Python integers.
    Sums, differences, products and quotients are the primitive binary64
    operations; [fmod], [floor] and the conversions are computed from the
    mantissa and the exponent of their argument.  The lists of the ledger are
    left out: the cash and the holdings do not read them. *)

Module Doubles.
Import PrimFloat.

(** A finite double is [m * 2^e] for two integers [m] and [e]. *)
Definition scaled (x : float) : option (Z * Z) :=
  match FloatOps.Prim2SF x with
  | SpecFloat.S754_zero _ => Some (0, 0)%Z
  | SpecFloat.S754_finite s m e => Some (if s then Z.neg m else Z.pos m, e)
  | _ => None
  end.

(** The rational a finite double stands for. *)
Definition to_Q (x : float) : option Q :=
  match scaled x with
  | Some (m, e) => Some (Qred (inject_Z m * Qpower 2 e))
  | None => None
  end.

(** The double nearest to [m * 2^e], ties to even. *)
Definition nearest (m e : Z) : float :=
  FloatOps.SF2Prim (SpecFloat.binary_normalize FloatOps.prec FloatOps.emax m e false).

(** [copysign(0, x)]. *)
Definition signed_zero (x : float) : float :=
  if get_sign x then neg_zero else zero.

(** C's [fmod]: the remainder of the truncated quotient, which is a double. *)
Definition fmod (a b : float) : float :=
  match scaled a, scaled b with
  | Some (ma, ea), Some (mb, eb) =>
      if (mb =? 0)%Z then nan
      else
        let e := Z.min ea eb in
        let r := Z.rem (ma * 2 ^ (ea - e)) (mb * 2 ^ (eb - e)) in
        if (r =? 0)%Z then signed_zero a else nearest r e
  | Some _, None => if is_nan b then nan else a
  | None, _ => nan
  end.

Definition floor (x : float) : float :=
  match scaled x with
  | Some (m, e) =>
      if ((0 <=? e) || (m =? 0))%Z then x else nearest (m / 2 ^ (- e)) 0
  | None => x
  end.

(** [a // b] on numpy doubles ([npy_floor_divide]): the quotient is built
    from [fmod], corrected for the sign of the divisor and snapped to the
    nearest integer.  A zero divisor gives [a / b], that is [inf] or [nan]. *)
Definition floor_divide (a b : float) : float :=
  if (b =? 0)%float then (a / b)%float
  else
    let r := fmod a b in
    let div := ((a - r) / b)%float in
    let div :=
      if negb (r =? 0)%float && negb (Bool.eqb (b <? 0)%float (r <? 0)%float)
      then (div - 1)%float
      else div in
    if (div =? 0)%float then signed_zero (a / b)
    else
      let floordiv := floor div in
      if (0.5 <? div - floordiv)%float then (floordiv + 1)%float else floordiv.

(** [int(x)]: truncation towards zero; [inf] and [nan] are refused. *)
Definition int (x : float) : result Z :=
  match scaled x with
  | Some (m, e) => Ok (if (0 <=? e)%Z then m * 2 ^ e else Z.quot m (2 ^ (- e)))%Z
  | None =>
      if is_nan x
      then Raise (ValueError "cannot convert float NaN to integer")
      else Raise OverflowError
  end.

(** A Python integer as the operand of a double. *)
Definition of_int (z : Z) : float := nearest z 0.

Record row : Type := mkRow {
  Close : float;
  Signal : Z
}.

Record ledger : Type := mkLedger {
  cash : float;
  holdings : Z
}.

Definition initial_ledger (initial_capital : float) : ledger :=
  mkLedger initial_capital 0.

(** The [if / elif / else] of the loop body. *)
Definition execute_signal (fee_percentage : float) (st : ledger) (price : float)
  (signal : Z) : result ledger :=
  if ((signal =? 1) && (holdings st =? 0))%Z then
    shares <- int (floor_divide (cash st) price) ;;
    if (shares >? 0)%Z then
      let fee := (of_int shares * price * fee_percentage)%float in
      Ok (mkLedger (cash st - (of_int shares * price + fee))%float
                   (holdings st + shares)%Z)
    else Ok st
  else if ((signal =? -1) && (holdings st >? 0))%Z then
    let fee := (of_int (holdings st) * price * fee_percentage)%float in
    Ok (mkLedger (cash st + (of_int (holdings st) * price - fee))%float 0)
  else Ok st.

Fixpoint backtest_loop (fee_percentage : float) (st : ledger) (data : list row)
  : result ledger :=
  match data with
  | [] => Ok st
  | r :: rest =>
      st' <- execute_signal fee_percentage st (Close r) (Signal r) ;;
      backtest_loop fee_percentage st' rest
  end.

(** The cash and the holdings once the rows [0 .. t] have been processed. *)
Definition ledger_after (data : list row) (initial_capital fee_percentage : float)
  (t : nat) : result ledger :=
  backtest_loop fee_percentage (initial_ledger initial_capital) (firstn (S t) data).

(** The doubles written [1e18], [100.04] and [0.01] in Python. *)
Definition capital_1e18 : float := 0x1.bc16d674ec8p+59.
Definition close_100_04 : float := 0x1.9028f5c28f5c3p+6.
Definition fee_0_01 : float := 0x1.47ae147ae147bp-7.

(** The doubles written [1.7e308] and [0.5]. *)
Definition capital_1_7e308 : float := 0x1.e42d130773b76p+1023.
Definition close_0_5 : float := 0x1p-1.


End Doubles.

(** ** calculate_performance_metrics *)

Module Stats.

(** [s.iloc[-1]] and [s.iloc[0]]. *)
Definition iloc_last {A} (xs : list A) : result A :=
  match rev xs with
  | [] => Raise IndexError
  | x :: _ => Ok x
  end.

Definition iloc_first {A} (xs : list A) : result A :=
  match xs with
  | [] => Raise IndexError
  | x :: _ => Ok x
  end.

(** [max] and [min] of two cells, skipping [nan]. *)
Definition fmax (a x : fval) : fval :=
  if isnan x then a else if isnan a then x else if flt a x then x else a.

Definition fmin (a x : fval) : fval :=
  if isnan x then a else if isnan a then x else if flt x a then x else a.

Fixpoint expanding_max_from (acc : fval) (xs : list fval) : list fval :=
  match xs with
  | [] => []
  | x :: rest => let m := fmax acc x in m :: expanding_max_from m rest
  end.

(** [s.expanding(min_periods=1).max()]. *)
Definition expanding_max (xs : list fval) : list fval :=
  expanding_max_from NaN xs.

(** [s.min()]: [nan] on a series without a valid value. *)
Definition series_min (xs : list fval) : fval := fold_left fmin xs NaN.

(** [s.mean()]. *)
Definition series_mean (xs : list fval) : fval :=
  let ys := dropna xs in fdiv (fsum ys) (of_nat (length ys)).

Section WithSqrt.

(** [numpy.sqrt] on the non-negative rationals. *)
Variable sqrt : Q -> Q.

Definition fsqrt (x : fval) : fval :=
  match x with
  | Fin q => if Qlt_bool q 0 then NaN else Fin (sqrt q)
  | PInf => PInf
  | NInf | NaN => NaN
  end.

(** [s.std()]: sample standard deviation (ddof = 1), [nan] below two
    observations. *)
Definition series_std (xs : list fval) : fval :=
  let ys := dropna xs in
  if (length ys <=? 1)%nat then NaN
  else
    let m := series_mean ys in
    let sq := map (fun y => fmul (fsub y m) (fsub y m)) ys in
    fsqrt (fdiv (fsum sq) (of_nat (length ys - 1))).

Definition annualized_volatility (returns : list fval) : fval :=
  fmul (series_std returns) (fsqrt 252).

Definition risk_free_rate : Q := 1 # 100.

(** [(mean * 252 - risk_free_rate) / volatility if volatility != 0 else 0]. *)
Definition sharpe_ratio (returns : list fval) : fval :=
  let volatility := annualized_volatility returns in
  if fne volatility 0
  then fdiv (fsub (fmul (series_mean returns) 252) risk_free_rate) volatility
  else 0.

End WithSqrt.

(** Drawdown series of a value series. *)
Definition drawdown_series (values : list fval) : list fval :=
  let cumulative_max := expanding_max values in
  map2 fdiv (map2 fsub values cumulative_max) cumulative_max.

(** [s.pct_change()]. *)
Definition pct_change (xs : list fval) : list fval :=
  map (fun r => fsub r 1) (map2 fdiv xs (shift xs)).

End Stats.
Import Stats.

(** The metrics dictionary, before its values are formatted as strings. *)
Record metrics : Type := mkMetrics {
  portfolio_value : Q;
  total_return : fval;
  max_drawdown : fval;
  volatility : fval;
  sharpe : fval;
  fees_paid : Q;
  number_of_trades : Z;
  bh_portfolio_value : fval;
  bh_total_return : fval;
  bh_max_drawdown : fval;
  bh_volatility : fval;
  bh_sharpe_ratio : fval
}.

Section Metrics.

Variable sqrt : Q -> Q.

Definition calculate_performance_metrics (data : backtest_frame) (initial_capital : Q)
  : result metrics :=
  final_portfolio_value <- iloc_last (PortfolioValue data) ;;
  let total_return :=
    fsub (fdiv final_portfolio_value initial_capital) 1 in
  let max_drawdown :=
    series_min (drawdown_series (map Fin (PortfolioValue data))) in
  let total_fees := TotalFees data in
  let strategy_daily_returns := map Fin (StrategyDailyReturn data) in
  let strategy_volatility := annualized_volatility sqrt strategy_daily_returns in
  let strategy_sharpe_ratio := sharpe_ratio sqrt strategy_daily_returns in
  let num_trades := fold_right Z.add 0%Z (map Z.abs (Trades data)) in
  let close := map (fun r => Fin (Close r)) (Rows data) in
  close0 <- iloc_first close ;;
  let bh_value := map (fun c => fmul initial_capital (fdiv c close0)) close in
  bh_final <- iloc_last bh_value ;;
  let bh_total_return := fsub (fdiv bh_final initial_capital) 1 in
  let bh_max_drawdown := series_min (drawdown_series bh_value) in
  let bh_daily_return := fillna 0 (pct_change close) in
  let bh_volatility := annualized_volatility sqrt bh_daily_return in
  let bh_sharpe_ratio := sharpe_ratio sqrt bh_daily_return in
  Ok (mkMetrics final_portfolio_value total_return max_drawdown
                strategy_volatility strategy_sharpe_ratio total_fees num_trades
                bh_final bh_total_return bh_max_drawdown bh_volatility
                bh_sharpe_ratio).

End Metrics.

(** ** configuration.py *)

Local Open Scope string_scope.

Definition COMPANIES : list (string * string) :=
  [ ("Apple Inc. (AAPL)", "AAPL");
    ("Microsoft Corporation (MSFT)", "MSFT");
    ("Amazon.com, Inc. (AMZN)", "AMZN");
    ("Alphabet Inc. Class A (GOOGL)", "GOOGL");
    ("Alphabet Inc. Class C (GOOG)", "GOOG");
    ("Meta Platforms, Inc. (META)", "META");
    ("Tesla, Inc. (TSLA)", "TSLA");
    ("NVIDIA Corporation (NVDA)", "NVDA");
    ("JPMorgan Chase & Co. (JPM)", "JPM") ].

Definition START_DATE : string := "2020-01-01".
Definition END_DATE : string := "2023-12-31".

(** [d[key]] on a dict. *)
Fixpoint dict_get (d : list (string * string)) (key : string) : result string :=
  match d with
  | [] => Raise (KeyError key)
  | (k, v) :: rest => if String.eqb k key then Ok v else dict_get rest key
  end.

(** ** BacktestApp.run_backtest *)

(** What the driver does that is visible outside it: message boxes and the
    calls it makes, in order. *)
Inductive event : Type :=
| showerror (title message : string)
| showinfo (title message : string)
| call_get_historical_data (ticker start_date end_date : string)
| call_calculate_rsi
| call_generate_signals
| call_backtest_strategy
| call_calculate_performance_metrics
| call_display_metrics (m : metrics)
| call_plot_results.

(** A computation that logs events and may raise. *)
Definition traced (A : Type) : Type := (list event * result A)%type.

Definition emit (e : event) : traced unit := ([e], Ok tt).
Definition lift {A} (r : result A) : traced A := ([], r).

Definition tbind {A B} (m : traced A) (k : A -> traced B) : traced B :=
  match m with
  | (tr, Ok a) => let (tr', r) := k a in ((tr ++ tr')%list, r)
  | (tr, Raise e) => (tr, Raise e)
  end.

Notation "x <~ m ;; k" := (tbind m (fun x => k))
  (at level 61, m at next level, right associativity).

(** The entry widgets read by the driver. *)
Record widgets : Type := mkWidgets {
  company_var : string;
  capital_entry : string;
  fee_entry : string;
  overbought_entry : string;
  oversold_entry : string
}.

(** The values the [try] block leaves behind when it does not raise. *)
Record config : Type := mkConfig {
  cfg_company_name : string;
  cfg_ticker : string;
  cfg_initial_capital : fval;
  cfg_fee_percentage : fval;
  cfg_rsi_overbought : fval;
  cfg_rsi_oversold : fval
}.

Section Driver.

(** The numeral read by Python's [float]: [None] when the text is not one. *)
Variable parse_float : string -> option fval.
(** The market-data collaborator, with its clean-up: the [Close] column. *)
Variable get_historical_data : string -> string -> string -> list Q.
Variable sqrt : Q -> Q.

(** [float(s)]: a float, or [ValueError]. *)
Definition py_float (s : string) : result fval :=
  match parse_float s with
  | Some v => Ok v
  | None => Raise (ValueError ("could not convert string to float: '" ++ s ++ "'"))
  end.

(** The body of the [try] block. *)
Definition read_inputs (self : widgets) : result config :=
  let company_name := company_var self in
  ticker <- dict_get COMPANIES company_name ;;
  initial_capital <- py_float (capital_entry self) ;;
  if fle initial_capital 0%Q
  then Raise (ValueError "Starting capital must be positive.")
  else
  fee <- py_float (fee_entry self) ;;
  let fee_percentage := fdiv fee 100%Q in
  if flt fee_percentage 0%Q
  then Raise (ValueError "Fee percentage cannot be negative.")
  else
  rsi_overbought <- py_float (overbought_entry self) ;;
  if negb (flt 0%Q rsi_overbought && flt rsi_overbought 100%Q)
  then Raise (ValueError "RSI Overbought level must be between 0 and 100.")
  else
  rsi_oversold <- py_float (oversold_entry self) ;;
  if negb (flt 0%Q rsi_oversold && flt rsi_oversold 100%Q)
  then Raise (ValueError "RSI Oversold level must be between 0 and 100.")
  else
  if fge rsi_oversold rsi_overbought
  then Raise (ValueError "RSI Oversold level must be less than RSI Overbought level.")
  else Ok (mkConfig company_name ticker initial_capital fee_percentage
                    rsi_overbought rsi_oversold).

(** The simulator is embedded on finite capital and fee only. *)
Definition finite_arg (x : fval) : result Q :=
  match finite x with
  | Some q => Ok q
  | None => Raise (NotModelled "inf or nan capital or fee")
  end.

(** The code after the data has been found non-empty. *)
Definition run_core (cfg : config) (data : list Q) : traced unit :=
  _ <~ emit call_calculate_rsi ;;
  rsi <~ lift (calculate_rsi data 14) ;;
  _ <~ emit call_generate_signals ;;
  let signal := generate_signals rsi (cfg_rsi_overbought cfg) (cfg_rsi_oversold cfg) in
  _ <~ emit call_backtest_strategy ;;
  initial_capital <~ lift (finite_arg (cfg_initial_capital cfg)) ;;
  fee_percentage <~ lift (finite_arg (cfg_fee_percentage cfg)) ;;
  frame <~ lift (backtest_strategy (make_rows data signal) initial_capital fee_percentage) ;;
  _ <~ emit call_calculate_performance_metrics ;;
  m <~ lift (calculate_performance_metrics sqrt frame initial_capital) ;;
  _ <~ emit (call_display_metrics m) ;;
  emit call_plot_results.

Definition run_backtest (self : widgets) : traced unit :=
  match read_inputs self with
  | Raise (ValueError e) =>
      _ <~ emit (showerror "Input Error" e) ;;
      lift (Ok tt)
  | Raise e => lift (Raise e)
  | Ok cfg =>
      _ <~ emit (call_get_historical_data (cfg_ticker cfg) START_DATE END_DATE) ;;
      let data := get_historical_data (cfg_ticker cfg) START_DATE END_DATE in
      if (length data =? 0)%nat then
        _ <~ emit (showinfo "No Data" "No data available for the selected parameters.") ;;
        lift (Ok tt)
      else run_core cfg data
  end.

End Driver.

Local Close Scope string_scope.

(** ** display_metrics and the markers of plot_results *)

Local Open Scope string_scope.

(** [s.lower()] on ASCII text. *)
Definition ascii_lower (a : ascii) : ascii :=
  let n := nat_of_ascii a in
  if ((65 <=? n) && (n <=? 90))%nat then ascii_of_nat (n + 32) else a.

Fixpoint str_lower (s : string) : string :=
  match s with
  | EmptyString => EmptyString
  | String a rest => String (ascii_lower a) (str_lower rest)
  end.

(** [s.replace(old, new)] for a one-character [old]. *)
Fixpoint str_replace_char (old : ascii) (new : string) (s : string) : string :=
  match s with
  | EmptyString => EmptyString
  | String a rest =>
      if Ascii.eqb a old
      then new ++ str_replace_char old new rest
      else String a (str_replace_char old new rest)
  end.

(** A value of the metrics dictionary with the format it is printed in:
    [${x:,.2f}], [{x:.2%}], [{x:.2f}], an integer, or a literal text. *)
Inductive shown : Type :=
| Money (x : fval)
| Percent (x : fval)
| Ratio (x : fval)
| Count (n : Z)
| Text (s : string).

(** The dictionary returned by [calculate_performance_metrics]. *)
Definition metrics_dict (m : metrics) : list (string * shown) :=
  [ ("portfolio_value", Money (Fin (portfolio_value m)));
    ("total_return", Percent (total_return m));
    ("max_drawdown", Percent (max_drawdown m));
    ("volatility", Percent (volatility m));
    ("sharpe_ratio", Ratio (sharpe m));
    ("fees_paid", Money (Fin (fees_paid m)));
    ("number_of_trades", Count (number_of_trades m));
    ("bh_portfolio_value", Money (bh_portfolio_value m));
    ("bh_total_return", Percent (bh_total_return m));
    ("bh_max_drawdown", Percent (bh_max_drawdown m));
    ("bh_volatility", Percent (bh_volatility m));
    ("bh_sharpe_ratio", Ratio (bh_sharpe_ratio m));
    ("bh_number_of_trades", Text "N/A");
    ("bh_fees_paid", Text "N/A") ].

(** [d.get(key, default)]. *)
Fixpoint dict_get_default (d : list (string * shown)) (key : string) (default : shown)
  : shown :=
  match d with
  | [] => default
  | (k, v) :: rest => if String.eqb k key then v else dict_get_default rest key default
  end.

Definition headers : list string := [""; "RSI-Strategy"; "Buy-n-Hold"].

Definition metrics_labels : list string :=
  [ "Portfolio Value"; "Total Return"; "Max. Drawdown"; "Volatility";
    "Sharpe Ratio"; "Fees Paid"; "Number of Trades" ].

Definition metric_key (metric : string) : string :=
  str_replace_char "." "" (str_replace_char " " "_" (str_lower metric)).

(** A label placed on the grid of the metrics frame. *)
Record grid_label : Type := mkLabel {
  grid_row : nat;
  grid_column : nat;
  label_text : shown
}.

(** [enumerate(xs, start)]. *)
Definition enumerate {A} (xs : list A) (start : nat) : list (nat * A) :=
  combine (seq start (length xs)) xs.

(** The labels [display_metrics] puts on the grid, in the order it creates
    them (the frame that holds them replaces the one of the run before). *)
Definition display_metrics (m : list (string * shown)) : list grid_label :=
  map (fun p => mkLabel 0 (fst p) (Text (snd p))) (enumerate headers 0) ++
  flat_map (fun p =>
              let row := fst p in
              let metric := snd p in
              let key := metric_key metric in
              [ mkLabel row 0 (Text (metric ++ ":"));
                mkLabel row 1 (dict_get_default m key (Text ""));
                mkLabel row 2 (dict_get_default m ("bh_" ++ key) (Text "")) ])
           (enumerate metrics_labels 1).

Local Close Scope string_scope.

(** The rows [plot_results] keeps for its markers: [data[data['Trades'] != 0]],
    each row with its position in the frame, which stands for its date. *)
Definition plot_trades (data : backtest_frame) : list (nat * (row * Z)) :=
  filter (fun x => negb (snd (snd x) =? 0)%Z)
         (enumerate (combine (Rows data) (Trades data)) 0).

(** The points drawn as buy markers and as sell markers: index and close. *)
Definition plot_buy_markers (data : backtest_frame) : list (nat * Q) :=
  map (fun x => (fst x, Close (fst (snd x))))
      (filter (fun x => (snd (snd x) =? 1)%Z) (plot_trades data)).

Definition plot_sell_markers (data : backtest_frame) : list (nat * Q) :=
  map (fun x => (fst x, Close (fst (snd x))))
      (filter (fun x => (snd (snd x) =? -1)%Z) (plot_trades data)).

(** ** Auxiliary notions used in the statements and proofs *)

(** The signal of one row, from its indicator value and the one before. *)
Definition signal_at (cur prev ob os : fval) : Z :=
  if flt cur ob && fge prev ob then (-1)%Z
  else if fgt cur os && fle prev os then 1%Z
  else 0%Z.

(** One cell of the [RSI] column, from the two rolling means of its row. *)
Definition rsi_cell (avg_gain avg_loss : fval) : fval :=
  let v := rsi_formula (fdiv avg_gain avg_loss) in
  if isnan v then Fin 50 else v.

(** Classes of cells. *)
Definition fin_or_nan (x : fval) : Prop :=
  match x with Fin _ | NaN => True | _ => False end.

Definition is_fin (x : fval) : Prop :=
  match x with Fin _ => True | _ => False end.

Definition nonneg_fin (x : fval) : Prop :=
  match x with Fin q => 0 <= q | _ => False end.

Definition zero_fin (x : fval) : Prop :=
  match x with Fin q => q == 0 | _ => False end.

Definition nan_or_zero (d : fval) : Prop := d = NaN \/ zero_fin d.

(** The ledger as row t finds it. *)
Definition ledger_before (data : list row) (initial_capital fee : Q) (t : nat)
  : result ledger :=
  backtest_loop fee (initial_ledger initial_capital) (firstn t data).

(** A Buy signal met while flat that sizes to no share. *)
Definition skipped_buy (st : ledger) (r : row) : bool :=
  ((Signal r =? 1) && (holdings st =? 0) && negb (Qfloor (cash st / Close r) >? 0))%Z.

(** A finite cell equal to [cap]. *)
Definition eq_cell (cap : Q) (x : fval) : Prop :=
  match x with Fin q => q == cap | _ => False end.

Definition holding_flag (h : Z) : Z := if (h >? 0)%Z then 1%Z else 0%Z.

(** The flag of the shares held is the last position and the sum of the trade
    markers. *)
Definition ledger_flags (st : ledger) : Prop :=
  (0 <= holdings st)%Z /\
  fold_right Z.add 0%Z (trades st) = holding_flag (holdings st) /\
  last_position (positions st) = holding_flag (holdings st) /\
  Forall (fun p => p = 0%Z \/ p = 1%Z) (positions st).


Definition in_0_100 (x : fval) : Prop :=
  match x with Fin q => 0 <= q /\ q <= 100 | _ => False end.

(** A value cell with the running maximum beside it. *)
Definition below_max (v m : fval) : Prop :=
  match v, m with
  | Fin a, Fin b => 0 < a /\ a <= b
  | _, _ => False
  end.

Definition positive_cell (x : fval) : Prop :=
  match x with Fin q => 0 < q | _ => False end.

Definition drawdown_cell (x : fval) : Prop :=
  match x with Fin q => -1 < q /\ q <= 0 | _ => False end.


(** ** Concrete inputs *)

(** A rational square root: the integer square root of the value scaled by
    10^12, scaled back. *)
Definition sqrt_approx (q : Q) : Q :=
  inject_Z (Z.sqrt (Qfloor (q * 1000000000000))) / 1000000.

(** A reader of integer numerals, standing for [float] on such texts. *)
Definition digit_of (a : Ascii.ascii) : option Z :=
  let n := Z.of_nat (Ascii.nat_of_ascii a) in
  if ((48 <=? n) && (n <=? 57))%Z then Some (n - 48)%Z else None.

Fixpoint digits_from (acc : Z) (s : string) : option Z :=
  match s with
  | EmptyString => Some acc
  | String a rest =>
      match digit_of a with
      | Some d => digits_from (10 * acc + d) rest
      | None => None
      end
  end.

Definition int_numeral (s : string) : option fval :=
  match s with
  | EmptyString => None
  | String a rest =>
      if Ascii.eqb a "-"%char
      then match rest with
           | EmptyString => None
           | _ => option_map (fun z => Fin (inject_Z (- z))) (digits_from 0 rest)
           end
      else option_map (fun z => Fin (inject_Z z)) (digits_from 0 s)
  end.

(** A collaborator that finds no data. *)
Definition no_data (ticker start_date end_date : string) : list Q := [].

(** A price series that falls, recovers through the oversold line, rises above
    the overbought line, falls back through it, collapses, recovers once more
    and collapses again. *)
Definition crossing_close : list Q := [100; 90; 100; 130; 120; 40; 50; 10].

Definition round_trip : list row := [mkRow 100 1; mkRow 110 (-1)].

Definition flat_frame : backtest_frame :=
  mkFrame [mkRow 100 0; mkRow 100 0] [1000; 1000] 0 [0; 0]%Z [0; 0]%Z [0; 0].

Definition inverted_thresholds : widgets :=
  mkWidgets "JPMorgan Chase & Co. (JPM)" "10000" "0" "30" "70".

Definition default_inputs : widgets :=
  mkWidgets "JPMorgan Chase & Co. (JPM)" "10000" "0" "70" "30".

Definition small_capital : widgets :=
  mkWidgets "JPMorgan Chase & Co. (JPM)" "50" "0" "70" "30".

(** A collaborator that returns [crossing_close]. *)
Definition crossing_data (ticker start_date end_date : string) : list Q :=
  crossing_close.

(** The round trip [round_trip] at a capital of 1000 and a fee rate of 1%:
    its final ledger, the frame returned and its metrics. *)
Definition round_trip_ledger : ledger :=
  Eval vm_compute in
    match backtest_loop (1 # 100) (initial_ledger 1000) round_trip with
    | Ok st => st
    | Raise _ => initial_ledger 0
    end.

Definition round_trip_frame : backtest_frame :=
  Eval vm_compute in
    match backtest_strategy round_trip 1000 (1 # 100) with
    | Ok f => f
    | Raise _ => mkFrame [] [] 0 [] [] []
    end.

Definition round_trip_metrics : metrics :=
  Eval vm_compute in
    match calculate_performance_metrics sqrt_approx round_trip_frame 1000 with
    | Ok m => m
    | Raise _ => mkMetrics 0 NaN NaN NaN NaN 0 0 NaN NaN NaN NaN NaN
    end.

(** The indicator of [crossing_close]. *)
Definition crossing_rsi : list fval :=
  Eval vm_compute in
    match calculate_rsi crossing_close 14 with
    | Ok r => r
    | Raise _ => []
    end.

(** Rows without a Buy signal. *)
Definition sell_only : list row := [mkRow 100 0; mkRow 90 (-1)].

Definition single_row_frame : backtest_frame :=
  mkFrame [mkRow 100 0] [1000] 0 [0%Z] [0%Z] [0].

Definition unknown_company : widgets :=
  mkWidgets "Acme Corp. (ACME)" "10000" "0" "70" "30".

Definition unparsable_capital : widgets :=
  mkWidgets "JPMorgan Chase & Co. (JPM)" "ten thousand" "0" "70" "30".

Definition default_config : config :=
  mkConfig "JPMorgan Chase & Co. (JPM)" "JPM" (Fin 10000)
           (fdiv (Fin 0) (Fin 100)) (Fin 70) (Fin 30).

(** * Properties *)

#[local] Arguments Qfloor : simpl never.
#[local] Arguments Qdiv : simpl never.
#[local] Arguments Qmult : simpl never.
#[local] Arguments Qplus : simpl never.
#[local] Arguments Qminus : simpl never.
#[local] Arguments Qopp : simpl never.
#[local] Arguments inject_Z : simpl never.

(** ** Comparisons on rationals and cells *)

Lemma Qlt_bool_iff (a b : Q) : Qlt_bool a b = true <-> a < b.
Proof.
  unfold Qlt_bool. rewrite negb_true_iff. split; intro H.
  - apply Qnot_le_lt. intro Hle. apply Qle_bool_iff in Hle. congruence.
  - destruct (Qle_bool b a) eqn:E; trivial.
    apply Qle_bool_iff in E. exfalso. exact (Qlt_not_le _ _ H E).
Qed.

Lemma Qlt_bool_false_iff (a b : Q) : Qlt_bool a b = false <-> b <= a.
Proof.
  unfold Qlt_bool. rewrite negb_false_iff. apply Qle_bool_iff.
Qed.

Lemma Qle_bool_false_iff (a b : Q) : Qle_bool a b = false <-> b < a.
Proof.
  rewrite <- Qlt_bool_iff. unfold Qlt_bool.
  destruct (Qle_bool a b); simpl; intuition congruence.
Qed.

Lemma Qeq_bool_false_iff (a b : Q) : Qeq_bool a b = false <-> ~ a == b.
Proof.
  split.
  - apply Qeq_bool_neq.
  - intro H. destruct (Qeq_bool a b) eqn:E; trivial.
    apply Qeq_bool_iff in E. contradiction.
Qed.

Lemma fle_nan_l (x : fval) : fle NaN x = false.
Proof. reflexivity. Qed.

Lemma fle_nan_r (x : fval) : fle x NaN = false.
Proof. destruct x; reflexivity. Qed.

(** A value cannot lie at or below one threshold and at or above a strictly
    larger one. *)
Lemma fle_fge_thresholds (x lo hi : fval) :
  flt lo hi = true -> fle x lo = true -> fge x hi = true -> False.
Proof.
  unfold fge.
  destruct x as [x| | |], lo as [lo| | |], hi as [hi| | |]; simpl;
    try discriminate; intros Hlt Hlo Hhi.
  apply Qlt_bool_iff in Hlt. apply Qle_bool_iff in Hlo, Hhi. lra.
Qed.

(** ** Columns *)

Section Columns.

Context {A B C : Type}.

Lemma map2_length (f : A -> B -> C) xs ys :
  length xs = length ys -> length (map2 f xs ys) = length xs.
Proof.
  intro H. unfold map2. rewrite length_map, length_combine. lia.
Qed.

Lemma nth_error_map2 (f : A -> B -> C) xs ys t :
  nth_error (map2 f xs ys) t =
  match nth_error xs t, nth_error ys t with
  | Some x, Some y => Some (f x y)
  | _, _ => None
  end.
Proof.
  unfold map2. revert ys t.
  induction xs as [|x xs IH]; intros [|y ys] [|t]; simpl; trivial.
  destruct (nth_error xs t); trivial.
Qed.

End Columns.

Lemma shift_length xs : length (shift xs) = length xs.
Proof.
  unfold shift. rewrite length_firstn. simpl. lia.
Qed.

Lemma nth_error_shift_0 x xs : nth_error (shift (x :: xs)) 0 = Some NaN.
Proof. reflexivity. Qed.

Lemma nth_error_shift_S xs t :
  (S t < length xs)%nat -> nth_error (shift xs) (S t) = nth_error xs t.
Proof.
  intro H. unfold shift. rewrite nth_error_firstn.
  apply Nat.ltb_lt in H. rewrite H. reflexivity.
Qed.

(** ** Signals *)

Lemma nth_error_generate_signals rsi ob os t :
  nth_error (generate_signals rsi ob os) t =
  match nth_error rsi t, nth_error (shift rsi) t with
  | Some cur, Some prev => Some (signal_at cur prev ob os)
  | _, _ => None
  end.
Proof.
  unfold generate_signals, loc_assign, buy_signals, sell_signals, signal_at.
  rewrite !nth_error_map2, nth_error_map.
  destruct (nth_error rsi t) as [cur|]; simpl; trivial.
  destruct (nth_error (shift rsi) t) as [prev|]; simpl; trivial.
Qed.

Lemma generate_signals_length rsi ob os :
  length (generate_signals rsi ob os) = length rsi.
Proof.
  assert (Hb : length (buy_signals rsi os) = length rsi).
  { unfold buy_signals. apply map2_length. symmetry. apply shift_length. }
  assert (Hs : length (sell_signals rsi ob) = length rsi).
  { unfold sell_signals. apply map2_length. symmetry. apply shift_length. }
  assert (H1 : length (loc_assign (buy_signals rsi os) 1%Z (map (fun _ => 0%Z) rsi))
               = length rsi).
  { unfold loc_assign. rewrite map2_length; rewrite length_map; congruence. }
  unfold generate_signals, loc_assign in *.
  rewrite map2_length; congruence.
Qed.

(** C3.  With the oversold threshold below the overbought one, row 0 holds;
    any later row t is a Buy exactly when the indicator is above the oversold
    threshold at t and was at or below it at t-1, a Sell exactly when it is
    below the overbought threshold at t and was at or above it at t-1, a Hold
    exactly when neither crossing happens; the two crossings never happen on
    one row. *)
Theorem generate_signals_crossings (rsi : list fval) (ob os : fval) :
  flt os ob = true ->
  length (generate_signals rsi ob os) = length rsi /\
  (rsi <> [] -> nth_error (generate_signals rsi ob os) 0 = Some 0%Z) /\
  (forall t cur prev,
      nth_error rsi (S t) = Some cur ->
      nth_error rsi t = Some prev ->
      exists s,
        nth_error (generate_signals rsi ob os) (S t) = Some s /\
        (s = 1%Z <-> fgt cur os = true /\ fle prev os = true) /\
        (s = (-1)%Z <-> flt cur ob = true /\ fge prev ob = true) /\
        (s = 0%Z <-> ~ (fgt cur os = true /\ fle prev os = true) /\
                     ~ (flt cur ob = true /\ fge prev ob = true)) /\
        ~ ((fgt cur os = true /\ fle prev os = true) /\
           (flt cur ob = true /\ fge prev ob = true))).
Proof.
  intro Hth. split; [apply generate_signals_length|]. split.
  - intro Hne. destruct rsi as [|x xs]; [congruence|].
    rewrite nth_error_generate_signals. simpl nth_error.
    unfold signal_at, fge. rewrite ?fle_nan_l, ?fle_nan_r, ?andb_false_r. reflexivity.
  - intros t cur prev Hcur Hprev.
    assert (Hlen : (S t < length rsi)%nat).
    { apply nth_error_Some. congruence. }
    exists (signal_at cur prev ob os).
    rewrite nth_error_generate_signals, Hcur, nth_error_shift_S, Hprev by exact Hlen.
    split; [reflexivity|].
    assert (Hex : ~ (fle prev os = true /\ fge prev ob = true)).
    { intros [H1 H2]. exact (fle_fge_thresholds prev os ob Hth H1 H2). }
    unfold signal_at.
    destruct (flt cur ob) eqn:E1, (fge prev ob) eqn:E2,
             (fgt cur os) eqn:E3, (fle prev os) eqn:E4; simpl;
      repeat split; try congruence; try tauto;
      try (intros; exfalso; tauto); intuition congruence.
Qed.

(** ** The indicator *)

Section ColumnInvariants.

Context {A : Type} (P : A -> Prop).

Lemma Forall_firstn_of n (l : list A) : Forall P l -> Forall P (firstn n l).
Proof.
  intro H. revert n. induction H; intros [|n]; simpl; auto.
Qed.

Lemma Forall_skipn_of n (l : list A) : Forall P l -> Forall P (skipn n l).
Proof.
  intro H. revert n. induction H; intros [|n]; simpl; auto.
Qed.

Lemma Forall_window_at w t (l : list A) : Forall P l -> Forall P (window_at w t l).
Proof.
  intro H. unfold window_at. now apply Forall_skipn_of, Forall_firstn_of.
Qed.

Lemma Forall_nth_error (l : list A) t x :
  Forall P l -> nth_error l t = Some x -> P x.
Proof.
  intros H Hx. rewrite Forall_forall in H. eapply H, nth_error_In, Hx.
Qed.

End ColumnInvariants.

Lemma Forall_map2 {A B C} (P : A -> Prop) (R : B -> Prop) (S : C -> Prop)
      (f : A -> B -> C) xs ys :
  (forall x y, P x -> R y -> S (f x y)) ->
  Forall P xs -> Forall R ys -> Forall S (map2 f xs ys).
Proof.
  intros Hf Hxs. revert ys. unfold map2.
  induction Hxs; intros ys Hys; simpl; [constructor|].
  destruct Hys; simpl; constructor; auto.
Qed.

Lemma window_at_length {A} w t (l : list A) :
  (t < length l)%nat -> length (window_at w t l) = Nat.min (S t) w.
Proof.
  intro H. unfold window_at. rewrite length_skipn, length_firstn. lia.
Qed.

Lemma zero_fin_feq x : zero_fin x <-> feq x 0.
Proof. destruct x; simpl; tauto. Qed.

Lemma zero_fin_nonneg x : zero_fin x -> nonneg_fin x.
Proof. destruct x; simpl; try tauto. intro H. rewrite H. apply Qle_refl. Qed.

Lemma shift_fin_or_nan xs : Forall is_fin xs -> Forall fin_or_nan (shift xs).
Proof.
  intro H. unfold shift. apply Forall_firstn_of. constructor; [exact I|].
  eapply Forall_impl; [|exact H]. intros [ | | | ]; simpl; tauto.
Qed.

Lemma rsi_delta_fin_or_nan close : Forall fin_or_nan (rsi_delta close).
Proof.
  unfold rsi_delta, diff.
  apply Forall_map2 with (P := is_fin) (R := fin_or_nan).
  - intros [x| | |] [y| | |]; simpl; tauto.
  - apply Forall_map, Forall_forall. intros; exact I.
  - apply shift_fin_or_nan, Forall_map, Forall_forall. intros; exact I.
Qed.

(** [s.where(c(s), other)] row by row. *)
Lemma where_map (c : fval -> bool) other xs :
  where_ (map c xs) other xs = map (fun x => if c x then x else other) xs.
Proof.
  unfold where_, map2. induction xs as [|x xs IH]; simpl; [reflexivity|].
  now rewrite IH.
Qed.

Lemma rsi_gain_nonneg close : Forall nonneg_fin (rsi_gain close).
Proof.
  unfold rsi_gain, fillna. rewrite where_map.
  apply Forall_map, Forall_map.
  eapply Forall_impl; [|apply rsi_delta_fin_or_nan].
  intros [q| | |]; simpl; try tauto; intros _.
  - unfold fgt. simpl. destruct (Qlt_bool 0 q) eqn:E; simpl.
    + apply Qlt_bool_iff in E. lra.
    + lra.
  - lra.
Qed.

Lemma rsi_loss_nonneg close : Forall nonneg_fin (rsi_loss close).
Proof.
  unfold rsi_loss, fillna. rewrite where_map.
  apply Forall_map, Forall_map, Forall_map.
  eapply Forall_impl; [|apply rsi_delta_fin_or_nan].
  intros [q| | |]; simpl; try tauto; intros _.
  - destruct (Qlt_bool q 0) eqn:E; simpl.
    + apply Qlt_bool_iff in E. lra.
    + lra.
  - lra.
Qed.

Lemma rsi_gain_length close : length (rsi_gain close) = length close.
Proof.
  unfold rsi_gain, fillna, rsi_delta, diff. rewrite where_map.
  rewrite !length_map, map2_length; rewrite ?shift_length, ?length_map; trivial.
Qed.

Lemma rsi_loss_length close : length (rsi_loss close) = length close.
Proof.
  unfold rsi_loss, fillna, rsi_delta, diff. rewrite where_map.
  rewrite !length_map, map2_length; rewrite ?shift_length, ?length_map; trivial.
Qed.

(** Sums and means of finite cells. *)

Lemma dropna_fin xs : Forall nonneg_fin xs -> dropna xs = xs.
Proof.
  intro H. unfold dropna. apply forallb_filter_id, forallb_forall.
  rewrite Forall_forall in H. intros x Hx. specialize (H x Hx).
  destruct x; simpl in *; tauto.
Qed.

Lemma fsum_nonneg xs :
  Forall nonneg_fin xs -> exists s, fsum xs = Fin s /\ 0 <= s.
Proof.
  induction 1 as [|x xs Hx _ [s [Hs Hs0]]]; simpl.
  - exists 0. split; [reflexivity | lra].
  - destruct x as [q| | |]; simpl in Hx; try tauto.
    rewrite Hs. exists (q + s). split; [reflexivity | lra].
Qed.

Lemma fsum_zero xs :
  Forall zero_fin xs -> exists s, fsum xs = Fin s /\ s == 0.
Proof.
  induction 1 as [|x xs Hx _ [s [Hs Hs0]]]; simpl.
  - exists 0. split; reflexivity.
  - destruct x as [q| | |]; simpl in Hx; try tauto.
    rewrite Hs. exists (q + s). split; [reflexivity | lra].
Qed.

Lemma of_nat_pos n : (1 <= n)%nat -> 0 < inject_Z (Z.of_nat n).
Proof.
  intro H. change 0 with (inject_Z 0). rewrite <- Zlt_Qlt. lia.
Qed.

Lemma Qdiv_nonneg a b : 0 <= a -> 0 < b -> 0 <= a / b.
Proof.
  intros Ha Hb. apply Qle_shift_div_l; [exact Hb | lra].
Qed.

Lemma Qdiv_zero a b : a == 0 -> a / b == 0.
Proof.
  intro Ha. rewrite Ha. unfold Qdiv. ring.
Qed.

Lemma mean_min_nonneg xs :
  xs <> [] -> Forall nonneg_fin xs -> nonneg_fin (mean_min 1 xs).
Proof.
  intros Hne H. unfold mean_min. rewrite (dropna_fin xs H).
  assert (Hlen : (1 <= length xs)%nat) by (destruct xs; simpl; [congruence | lia]).
  apply Nat.leb_le in Hlen as Hb. rewrite Hb.
  destruct (fsum_nonneg xs H) as [s [Hs Hs0]]. rewrite Hs. unfold of_nat, fdiv.
  pose proof (of_nat_pos _ Hlen) as Hpos.
  destruct (Qeq_bool (inject_Z (Z.of_nat (length xs))) 0) eqn:E.
  - apply Qeq_bool_iff in E. lra.
  - simpl. now apply Qdiv_nonneg.
Qed.

Lemma mean_min_zero xs :
  xs <> [] -> Forall zero_fin xs -> zero_fin (mean_min 1 xs).
Proof.
  intros Hne H. unfold mean_min.
  rewrite (dropna_fin xs) by (eapply Forall_impl; [apply zero_fin_nonneg | exact H]).
  assert (Hlen : (1 <= length xs)%nat) by (destruct xs; simpl; [congruence | lia]).
  apply Nat.leb_le in Hlen as Hb. rewrite Hb.
  destruct (fsum_zero xs H) as [s [Hs Hs0]]. rewrite Hs. unfold of_nat, fdiv.
  pose proof (of_nat_pos _ Hlen) as Hpos.
  destruct (Qeq_bool (inject_Z (Z.of_nat (length xs))) 0) eqn:E.
  - apply Qeq_bool_iff in E. lra.
  - simpl. now apply Qdiv_zero.
Qed.

Lemma rolling_mean_length w m xs : length (rolling_mean w m xs) = length xs.
Proof.
  unfold rolling_mean. now rewrite length_map, length_seq.
Qed.

Lemma nth_error_rolling_mean w m xs t :
  (t < length xs)%nat ->
  nth_error (rolling_mean w m xs) t = Some (mean_min m (window_at w t xs)).
Proof.
  intro H. unfold rolling_mean. rewrite nth_error_map, nth_error_seq.
  apply Nat.ltb_lt in H. now rewrite H.
Qed.

Lemma window_at_nonempty {A} w t (l : list A) :
  (1 <= w)%nat -> (t < length l)%nat -> window_at w t l <> [].
Proof.
  intros Hw Ht Hnil. pose proof (window_at_length w t l Ht) as Hl.
  rewrite Hnil in Hl. cbn [length] in Hl. lia.
Qed.

Lemma rolling_mean_nonneg w xs :
  (1 <= w)%nat -> Forall nonneg_fin xs -> Forall nonneg_fin (rolling_mean w 1 xs).
Proof.
  intros Hw H. unfold rolling_mean. apply Forall_map, Forall_forall.
  intros t Ht. apply in_seq in Ht.
  apply mean_min_nonneg.
  - apply window_at_nonempty; lia.
  - now apply Forall_window_at.
Qed.

Lemma rolling_mean_zero w xs :
  (1 <= w)%nat -> Forall zero_fin xs -> Forall zero_fin (rolling_mean w 1 xs).
Proof.
  intros Hw H. unfold rolling_mean. apply Forall_map, Forall_forall.
  intros t Ht. apply in_seq in Ht.
  apply mean_min_zero.
  - apply window_at_nonempty; lia.
  - now apply Forall_window_at.
Qed.

Lemma calculate_rsi_ok close period :
  (1 <= period)%nat ->
  calculate_rsi close period =
  Ok (map2 rsi_cell (rsi_avg_gain close period) (rsi_avg_loss close period)).
Proof.
  intro H. unfold calculate_rsi.
  assert (E : (period <? 1)%nat = false) by (apply Nat.ltb_ge; exact H).
  rewrite E. f_equal. unfold fillna, map2. rewrite !map_map. reflexivity.
Qed.

Lemma calculate_rsi_length close period rsi :
  calculate_rsi close period = Ok rsi -> length rsi = length close.
Proof.
  unfold calculate_rsi. destruct (period <? 1)%nat; [discriminate|].
  intro H. injection H as <-. unfold fillna, rsi_avg_gain, rsi_avg_loss.
  rewrite !length_map, map2_length; rewrite !rolling_mean_length;
    rewrite ?rsi_gain_length, ?rsi_loss_length; trivial.
Qed.

Lemma rsi_cell_zero_zero g l : zero_fin g -> zero_fin l -> rsi_cell g l = Fin 50.
Proof.
  destruct g as [g| | |], l as [l| | |]; simpl; try tauto. intros Hg Hl.
  unfold rsi_cell, fdiv. apply Qeq_bool_iff in Hl as ->. unfold signed_inf.
  apply Qeq_alt in Hg as ->. reflexivity.
Qed.

Lemma rsi_cell_pos_zero g l :
  flt 0 g = true -> nonneg_fin g -> zero_fin l -> feq (rsi_cell g l) 100.
Proof.
  destruct g as [g| | |], l as [l| | |]; simpl; try tauto. intros Hg _ Hl.
  unfold rsi_cell, fdiv. apply Qeq_bool_iff in Hl as ->. unfold signed_inf.
  apply Qlt_bool_iff in Hg. assert (Hgt : g > 0) by exact Hg.
  apply Qgt_alt in Hgt as ->. simpl. lra.
Qed.

Lemma nonneg_fin_cases g : nonneg_fin g -> zero_fin g \/ flt 0 g = true.
Proof.
  destruct g as [g| | |]; simpl; try tauto. intro H.
  destruct (Qeq_bool g 0) eqn:E.
  - left. now apply Qeq_bool_iff.
  - right. apply Qlt_bool_iff. apply Qeq_bool_neq in E. lra.
Qed.

(** ** Metrics *)

Lemma iloc_last_nonempty {A} (xs : list A) :
  xs <> [] -> exists x, iloc_last xs = Ok x.
Proof.
  intro H. unfold iloc_last. destruct (rev xs) as [|x r] eqn:E.
  - apply (f_equal (@rev A)) in E. rewrite rev_involutive in E. simpl in E.
    contradiction.
  - now exists x.
Qed.

Lemma iloc_last_snoc {A} (xs : list A) x : iloc_last (xs ++ [x]) = Ok x.
Proof. unfold iloc_last. now rewrite rev_app_distr. Qed.

Lemma sharpe_ratio_zero_volatility sqrt returns :
  feq (annualized_volatility sqrt returns) 0 -> sharpe_ratio sqrt returns = Fin 0.
Proof.
  unfold sharpe_ratio. intro H.
  destruct (annualized_volatility sqrt returns) as [v| | |]; simpl in H; try tauto.
  unfold fne, feqb. apply Qeq_bool_iff in H. now rewrite H.
Qed.

Lemma calculate_performance_metrics_ok sqrt data initial_capital :
  PortfolioValue data <> [] -> Rows data <> [] ->
  exists m, calculate_performance_metrics sqrt data initial_capital = Ok m /\
    volatility m =
      annualized_volatility sqrt (map Fin (StrategyDailyReturn data)) /\
    sharpe m = sharpe_ratio sqrt (map Fin (StrategyDailyReturn data)) /\
    bh_volatility m =
      annualized_volatility sqrt
        (fillna 0 (pct_change (map (fun r => Fin (Close r)) (Rows data)))) /\
    bh_sharpe_ratio m =
      sharpe_ratio sqrt
        (fillna 0 (pct_change (map (fun r => Fin (Close r)) (Rows data)))).
Proof.
  intros Hpv Hrows. unfold calculate_performance_metrics.
  destruct (iloc_last_nonempty _ Hpv) as [final ->]. simpl bind.
  destruct (Rows data) as [|r0 rows] eqn:Er; [contradiction|].
  simpl map at 1. cbn [iloc_first bind].
  match goal with
  | |- context [iloc_last ?l] =>
      destruct (iloc_last_nonempty l) as [bh E]; [discriminate | rewrite E]
  end.
  simpl bind. eexists. split; [reflexivity|]. simpl. repeat split.
Qed.

(** C4 (amended).  On every row whose rolling average loss is 0 the indicator
    is 50 when the rolling average gain is 0 as well and 100 when it is
    positive, and [calculate_rsi] returns; in [calculate_performance_metrics]
    the Sharpe ratio (of the strategy and of buy-and-hold) is 0 whenever the
    annualized volatility is 0, and the function returns on a non-empty
    frame. *)
Theorem zero_loss_and_zero_volatility_defaults :
  (forall (close : list Q) (period t : nat) (g l : fval),
      (1 <= period)%nat ->
      nth_error (rsi_avg_gain close period) t = Some g ->
      nth_error (rsi_avg_loss close period) t = Some l ->
      feq l 0 ->
      exists rsi, calculate_rsi close period = Ok rsi /\
        ((feq g 0 /\ nth_error rsi t = Some (Fin 50)) \/
         (flt 0 g = true /\ exists v, nth_error rsi t = Some v /\ feq v 100))) /\
  (forall (sqrt : Q -> Q) (data : backtest_frame) (initial_capital : Q),
      PortfolioValue data <> [] -> Rows data <> [] ->
      exists m, calculate_performance_metrics sqrt data initial_capital = Ok m /\
        (feq (volatility m) 0 -> sharpe m = Fin 0) /\
        (feq (bh_volatility m) 0 -> bh_sharpe_ratio m = Fin 0)).
Proof.
  split.
  - intros close period t g l Hp Hg Hl Hl0.
    eexists. split; [apply calculate_rsi_ok; exact Hp|].
    rewrite nth_error_map2, Hg, Hl.
    assert (Hgn : nonneg_fin g).
    { eapply Forall_nth_error; [|exact Hg].
      apply rolling_mean_nonneg; [exact Hp | apply rsi_gain_nonneg]. }
    apply zero_fin_feq in Hl0.
    destruct (nonneg_fin_cases g Hgn) as [Hz | Hpos].
    + left. split; [now apply zero_fin_feq|]. now rewrite rsi_cell_zero_zero.
    + right. split; [exact Hpos|]. eexists. split; [reflexivity|].
      now apply rsi_cell_pos_zero.
  - intros sqrt data cap Hpv Hrows.
    destruct (calculate_performance_metrics_ok sqrt data cap Hpv Hrows)
      as [m [Hm [Hv [Hs [Hbv Hbs]]]]].
    exists m. split; [exact Hm|]. split; intro H.
    + rewrite Hs. apply sharpe_ratio_zero_volatility. now rewrite <- Hv.
    + rewrite Hbs. apply sharpe_ratio_zero_volatility. now rewrite <- Hbv.
Qed.

(** ** The simulator *)

(** Case analysis on the branches of [execute_signal]. *)
Ltac exec_cases H :=
  unfold execute_signal, int_floordiv in H;
  repeat match type of H with
         | context [if ?c then _ else _] =>
             let E := fresh "E" in destruct c eqn:E; simpl in H
         end;
  try discriminate H;
  try (injection H as <- <-; simpl).

Lemma execute_signal_records fee st price signal st' tr :
  execute_signal fee st price signal = Ok (st', tr) ->
  portfolio_values st' = portfolio_values st /\
  trades st' = trades st /\
  daily_returns st' = daily_returns st /\
  prev_portfolio_value st' = prev_portfolio_value st.
Proof.
  intro H. exec_cases H; auto.
Qed.

Lemma step_inv fee st r st'' :
  step fee st r = Ok st'' ->
  exists st' tr,
    execute_signal fee st (Close r) (Signal r) = Ok (st', tr) /\
    st'' = record_step st' (Close r) tr.
Proof.
  unfold step. destruct (execute_signal fee st (Close r) (Signal r)) as [[st' tr]|e];
    simpl; [|discriminate].
  intro H. injection H as <-. now exists st', tr.
Qed.

(** What one step appends to the recorded columns. *)
Lemma step_records fee st r st'' :
  step fee st r = Ok st'' ->
  portfolio_values st'' =
    portfolio_values st ++ [cash st'' + inject_Z (holdings st'') * Close r] /\
  length (trades st'') = S (length (trades st)) /\
  length (daily_returns st'') = S (length (daily_returns st)).
Proof.
  intro H. destruct (step_inv _ _ _ _ H) as [st' [tr [He ->]]].
  destruct (execute_signal_records _ _ _ _ _ _ He) as [Hpv [Htr [Hdr _]]].
  simpl. rewrite Hpv, Htr, Hdr, !length_app. simpl. split; [reflexivity | lia].
Qed.

Lemma step_total fee st r : ~ Close r == 0 -> exists st', step fee st r = Ok st'.
Proof.
  intro Hp. apply Qeq_bool_false_iff in Hp.
  unfold step, execute_signal, int_floordiv. rewrite Hp.
  destruct ((Signal r =? 1) && (holdings st =? 0))%Z; simpl.
  - destruct (Qfloor (cash st / Close r) >? 0)%Z; simpl; eauto.
  - destruct ((Signal r =? -1) && (holdings st >? 0))%Z; simpl; eauto.
Qed.

Lemma backtest_loop_app fee st l1 l2 :
  backtest_loop fee st (l1 ++ l2) =
  (st1 <- backtest_loop fee st l1 ;; backtest_loop fee st1 l2).
Proof.
  revert st. induction l1 as [|r l1 IH]; intro st; simpl; [reflexivity|].
  destruct (step fee st r) as [st'|e]; simpl; [apply IH | reflexivity].
Qed.

Lemma backtest_loop_total fee st data :
  Forall (fun r => ~ Close r == 0) data ->
  exists st', backtest_loop fee st data = Ok st'.
Proof.
  intro H. revert st. induction H as [|r data Hr _ IH]; intro st; simpl.
  - now exists st.
  - destruct (step_total fee st r Hr) as [st1 ->]. simpl. apply IH.
Qed.

(** The loop only appends to the recorded columns, one cell per row. *)
Lemma backtest_loop_records fee st data st' :
  backtest_loop fee st data = Ok st' ->
  (exists new, portfolio_values st' = portfolio_values st ++ new /\
               length new = length data) /\
  length (trades st') = (length (trades st) + length data)%nat /\
  length (daily_returns st') = (length (daily_returns st) + length data)%nat.
Proof.
  revert st. induction data as [|r data IH]; intros st H; simpl in H.
  - injection H as <-. split; [exists []; now rewrite app_nil_r | simpl; lia].
  - destruct (step fee st r) as [st1|e] eqn:Es; simpl in H; [|discriminate].
    destruct (step_records _ _ _ _ Es) as [Hpv [Htr Hdr]].
    destruct (IH _ H) as [[new [Hnew Hlen]] [Htr' Hdr']].
    split; [|simpl; lia].
    eexists. rewrite Hnew, Hpv, <- app_assoc. split; [reflexivity|].
    simpl. now rewrite Hlen.
Qed.

(** Running a prefix of the rows. *)
Lemma backtest_loop_prefix fee st data st' k :
  backtest_loop fee st data = Ok st' ->
  exists stk, backtest_loop fee st (firstn k data) = Ok stk /\
              backtest_loop fee stk (skipn k data) = Ok st'.
Proof.
  intro H. rewrite <- (firstn_skipn k data), backtest_loop_app in H.
  destruct (backtest_loop fee st (firstn k data)) as [stk|e]; simpl in H;
    [|discriminate].
  now exists stk.
Qed.

Lemma firstn_S_nth_error {A} (l : list A) t x :
  nth_error l t = Some x -> firstn (S t) l = firstn t l ++ [x].
Proof.
  revert l. induction t as [|t IH]; intros [|y l] H; simpl in *; try discriminate.
  - now injection H as ->.
  - f_equal. now apply IH.
Qed.

(** The value recorded at row t is computed from the ledger left by row t. *)
Lemma ledger_after_recorded data cap fee t r fin :
  backtest_loop fee (initial_ledger cap) data = Ok fin ->
  nth_error data t = Some r ->
  exists st, ledger_after data cap fee t = Ok st /\
    nth_error (portfolio_values fin) t =
      Some (cash st + inject_Z (holdings st) * Close r).
Proof.
  intros Hfin Hr. unfold ledger_after.
  destruct (backtest_loop_prefix _ _ _ _ (S t) Hfin) as [st [Hst Hrest]].
  exists st. split; [exact Hst|].
  rewrite (firstn_S_nth_error _ _ _ Hr), backtest_loop_app in Hst.
  destruct (backtest_loop fee (initial_ledger cap) (firstn t data)) as [st0|e] eqn:E0;
    simpl in Hst; [|discriminate].
  destruct (step fee st0 r) as [st1|e] eqn:Es; simpl in Hst; [|discriminate].
  injection Hst as <-.
  destruct (backtest_loop_records _ _ _ _ E0) as [[new0 [Hnew0 Hlen0]] _].
  destruct (step_records _ _ _ _ Es) as [Hpv1 _].
  destruct (backtest_loop_records _ _ _ _ Hrest) as [[new [Hnew _]] _].
  assert (Ht : (t < length data)%nat) by (apply nth_error_Some; congruence).
  rewrite length_firstn in Hlen0. simpl in Hnew0.
  rewrite Hnew, Hpv1, Hnew0, <- app_assoc.
  rewrite nth_error_app2 by lia.
  replace (t - length new0)%nat with 0%nat by lia. reflexivity.
Qed.

(** C2.  In every run of the loop that completes, the portfolio value recorded
    for row t is the cash plus the shares held times the closing price of row
    t, both read from the ledger as row t leaves it; every row gets a value;
    the [Portfolio Value] column of the returned frame is that record; and
    the loop completes whenever no closing price is 0. *)
Theorem portfolio_value_invariant (data : list row) (initial_capital fee : Q) :
  (forall fin,
      backtest_loop fee (initial_ledger initial_capital) data = Ok fin ->
      length (portfolio_values fin) = length data /\
      (forall frame, backtest_strategy data initial_capital fee = Ok frame ->
                     PortfolioValue frame = portfolio_values fin) /\
      (forall t r, nth_error data t = Some r ->
         exists st, ledger_after data initial_capital fee t = Ok st /\
           nth_error (portfolio_values fin) t =
             Some (cash st + inject_Z (holdings st) * Close r))) /\
  (Forall (fun r => ~ Close r == 0) data ->
   exists fin, backtest_loop fee (initial_ledger initial_capital) data = Ok fin).
Proof.
  split; [|apply backtest_loop_total].
  intros fin Hfin. split; [|split].
  - destruct (backtest_loop_records _ _ _ _ Hfin) as [[new [Hnew Hlen]] _].
    simpl in Hnew. now rewrite Hnew.
  - intros frame Hf. unfold backtest_strategy in Hf. rewrite Hfin in Hf.
    simpl in Hf. unfold set_column in Hf.
    repeat match type of Hf with
           | context [if ?c then _ else _] => destruct c; simpl in Hf
           end; try discriminate.
    now injection Hf as <-.
  - intros t r Hr. now apply ledger_after_recorded.
Qed.

(** *** Fees and cash *)

Lemma inject_Z_gtb_pos z : (z >? 0)%Z = true -> 0 < inject_Z z.
Proof.
  intro H. apply Z.gtb_lt in H. change 0 with (inject_Z 0). now rewrite <- Zlt_Qlt.
Qed.

Lemma notional_pos z price : (z >? 0)%Z = true -> 0 < price -> 0 < inject_Z z * price.
Proof.
  intros Hz Hp. apply Qmult_lt_0_compat; [now apply inject_Z_gtb_pos | exact Hp].
Qed.

Lemma trade_fee_nonneg z price fee :
  (z >? 0)%Z = true -> 0 < price -> 0 <= fee -> 0 <= inject_Z z * price * fee.
Proof.
  intros Hz Hp Hf. apply Qmult_le_0_compat; [|exact Hf].
  apply Qlt_le_weak. now apply notional_pos.
Qed.


Lemma execute_signal_fees fee st price signal st' tr :
  0 <= fee -> 0 < price ->
  execute_signal fee st price signal = Ok (st', tr) ->
  total_fees st <= total_fees st'.
Proof.
  intros Hf Hp H. exec_cases H; try lra;
    match goal with
    | E : (?z >? 0)%Z = true |- _ =>
        pose proof (trade_fee_nonneg z price fee E Hp Hf); lra
    | E : (_ && (?z >? 0)%Z)%bool = true |- _ =>
        apply andb_true_iff in E; destruct E as [_ E];
        pose proof (trade_fee_nonneg z price fee E Hp Hf); lra
    end.
Qed.

Lemma step_fees fee st r st' :
  0 <= fee -> 0 < Close r -> step fee st r = Ok st' ->
  total_fees st <= total_fees st'.
Proof.
  intros Hf Hp H. destruct (step_inv _ _ _ _ H) as [st1 [tr [He ->]]]. simpl.
  eapply execute_signal_fees; eassumption.
Qed.

Lemma backtest_loop_fees fee st data st' :
  0 <= fee -> Forall (fun r => 0 < Close r) data ->
  backtest_loop fee st data = Ok st' ->
  total_fees st <= total_fees st'.
Proof.
  intros Hf Hd. revert st. induction Hd as [|r data Hr _ IH]; intros st H; simpl in H.
  - injection H as <-. lra.
  - destruct (step fee st r) as [st1|e] eqn:Es; simpl in H; [|discriminate].
    pose proof (step_fees _ _ _ _ Hf Hr Es). specialize (IH _ H). lra.
Qed.

Lemma positive_nonzero data :
  Forall (fun r => 0 < Close r) data -> Forall (fun r => ~ Close r == 0) data.
Proof.
  apply Forall_impl. intros r H E. rewrite E in H. lra.
Qed.

Lemma ledger_after_total data cap fee t :
  Forall (fun r => 0 < Close r) data ->
  exists st, ledger_after data cap fee t = Ok st.
Proof.
  intro H. apply backtest_loop_total, Forall_firstn_of, positive_nonzero, H.
Qed.

(** The ledger after row t' is reached from the ledger after row t <= t'. *)
Lemma ledger_after_continue data cap fee t t' st' :
  (t <= t')%nat ->
  ledger_after data cap fee t' = Ok st' ->
  exists st,
    ledger_after data cap fee t = Ok st /\
    backtest_loop fee st (skipn (S t) (firstn (S t') data)) = Ok st'.
Proof.
  intros Hle H. unfold ledger_after in *.
  destruct (backtest_loop_prefix _ _ _ _ (S t) H) as [st [Hst Hrest]].
  exists st. split; [|exact Hrest].
  rewrite firstn_firstn in Hst. now replace (Nat.min (S t) (S t')) with (S t) in Hst by lia.
Qed.

(** C9.  With a non-negative fee rate and positive closing prices, the fee
    total held by the ledger after row t is at most the one after any later
    row t'. *)
Theorem cumulative_fees_monotone (data : list row) (initial_capital fee : Q) (t t' : nat) :
  0 <= fee ->
  Forall (fun r => 0 < Close r) data ->
  (t <= t')%nat ->
  exists st st',
    ledger_after data initial_capital fee t = Ok st /\
    ledger_after data initial_capital fee t' = Ok st' /\
    total_fees st <= total_fees st'.
Proof.
  intros Hf Hd Hle.
  destruct (ledger_after_total data initial_capital fee t' Hd) as [st' Hst'].
  destruct (ledger_after_continue _ _ _ _ _ _ Hle Hst') as [st [Hst Hrest]].
  exists st, st'. split; [exact Hst|]. split; [exact Hst'|].
  eapply backtest_loop_fees; [exact Hf | | exact Hrest].
  now apply Forall_skipn_of, Forall_firstn_of.
Qed.




(** *** A run with fees against the run without *)

(** One signal acted on by two ledgers holding the same shares, the first at
    fee rate [fee], the second at fee rate 0: if they still hold the same
    shares afterwards, the first cannot gain cash on the second. *)
Lemma execute_signal_lockstep fee price signal sf s0 sf' s0' trf tr0 :
  0 <= fee -> 0 < price ->
  holdings sf = holdings s0 -> cash sf <= cash s0 ->
  execute_signal fee sf price signal = Ok (sf', trf) ->
  execute_signal 0 s0 price signal = Ok (s0', tr0) ->
  holdings sf' = holdings s0' ->
  cash sf' <= cash s0'.
Proof.
  intros Hf Hp Hh Hc. unfold execute_signal, int_floordiv. rewrite Hh.
  assert (Hnz : Qeq_bool price 0 = false) by (apply Qeq_bool_false_iff; lra).
  rewrite Hnz. cbn [bind].
  destruct ((signal =? 1) && (holdings s0 =? 0))%Z eqn:Eb.
  - destruct (Qfloor (cash sf / price) >? 0)%Z eqn:Ef,
             (Qfloor (cash s0 / price) >? 0)%Z eqn:E0;
      intros H1 H2; injection H1 as <- <-; injection H2 as <- <-; simpl; intro Hh'.
    + assert (Es : Qfloor (cash sf / price) = Qfloor (cash s0 / price)) by lia.
      rewrite Es.
      pose proof (trade_fee_nonneg _ price fee E0 Hp Hf). lra.
    + apply Z.gtb_lt in Ef. lia.
    + apply Z.gtb_lt in E0. lia.
    + exact Hc.
  - destruct ((signal =? -1) && (holdings s0 >? 0))%Z eqn:Es;
      intros H1 H2; injection H1 as <- <-; injection H2 as <- <-; simpl; intros _.
    + apply andb_true_iff in Es. destruct Es as [_ Es].
      pose proof (trade_fee_nonneg _ price fee Es Hp Hf). lra.
    + exact Hc.
Qed.

Lemma step_lockstep fee r sf s0 sf' s0' :
  0 <= fee -> 0 < Close r ->
  holdings sf = holdings s0 -> cash sf <= cash s0 ->
  step fee sf r = Ok sf' -> step 0 s0 r = Ok s0' ->
  holdings sf' = holdings s0' ->
  cash sf' <= cash s0' /\
  exists vf v0,
    portfolio_values sf' = portfolio_values sf ++ [vf] /\
    portfolio_values s0' = portfolio_values s0 ++ [v0] /\
    vf <= v0.
Proof.
  intros Hf Hp Hh Hc H1 H2.
  destruct (step_records _ _ _ _ H1) as [Hpf _].
  destruct (step_records _ _ _ _ H2) as [Hp0 _].
  destruct (step_inv _ _ _ _ H1) as [sf1 [trf [Hef ->]]].
  destruct (step_inv _ _ _ _ H2) as [s01 [tr0 [He0 ->]]].
  simpl in *. intro Hh'.
  pose proof (execute_signal_lockstep _ _ _ _ _ _ _ _ _ Hf Hp Hh Hc Hef He0 Hh') as Hc'.
  split; [exact Hc'|].
  eexists. eexists. split; [exact Hpf|]. split; [exact Hp0|].
  rewrite Hh'. lra.
Qed.

Lemma backtest_loop_lockstep fee data :
  0 <= fee -> Forall (fun r => 0 < Close r) data ->
  forall sf s0 ff f0,
    holdings sf = holdings s0 -> cash sf <= cash s0 ->
    (forall k stf st0,
        backtest_loop fee sf (firstn (S k) data) = Ok stf ->
        backtest_loop 0 s0 (firstn (S k) data) = Ok st0 ->
        holdings stf = holdings st0) ->
    backtest_loop fee sf data = Ok ff ->
    backtest_loop 0 s0 data = Ok f0 ->
    exists xf x0,
      portfolio_values ff = portfolio_values sf ++ xf /\
      portfolio_values f0 = portfolio_values s0 ++ x0 /\
      Forall2 Qle xf x0.
Proof.
  intros Hf Hd. induction Hd as [|r data Hr _ IH]; intros sf s0 ff f0 Hh Hc Hsame H1 H2.
  - simpl in H1, H2. injection H1 as <-. injection H2 as <-.
    exists [], []. rewrite !app_nil_r. repeat split. constructor.
  - simpl in H1, H2.
    destruct (step fee sf r) as [sf1|e] eqn:Esf; simpl in H1; [|discriminate].
    destruct (step 0 s0 r) as [s01|e] eqn:Es0; simpl in H2; [|discriminate].
    assert (Hh1 : holdings sf1 = holdings s01).
    { apply (Hsame 0%nat); simpl; [now rewrite Esf | now rewrite Es0]. }
    destruct (step_lockstep _ _ _ _ _ _ Hf Hr Hh Hc Esf Es0 Hh1)
      as [Hc1 [vf [v0 [Hpf [Hp0 Hv]]]]].
    destruct (IH sf1 s01 ff f0 Hh1 Hc1) as [xf [x0 [Hxf [Hx0 Hx]]]]; trivial.
    { intros k stf st0 Hkf Hk0. apply (Hsame (S k));
        cbn [firstn backtest_loop]; [now rewrite Esf | now rewrite Es0]. }
    exists (vf :: xf), (v0 :: x0).
    rewrite Hxf, Hx0, Hpf, Hp0, <- !app_assoc. repeat split. now constructor.
Qed.

Lemma Forall2_rev {A B} (R : A -> B -> Prop) xs ys :
  Forall2 R xs ys -> Forall2 R (rev xs) (rev ys).
Proof.
  induction 1; simpl; [constructor|].
  apply Forall2_app; [assumption | now constructor].
Qed.

Lemma Forall2_iloc_last {A B} (R : A -> B -> Prop) xs ys x y :
  Forall2 R xs ys -> iloc_last xs = Ok x -> iloc_last ys = Ok y -> R x y.
Proof.
  intro H. apply Forall2_rev in H. unfold iloc_last.
  destruct H; [discriminate|]. intros Hx Hy.
  injection Hx as <-. now injection Hy as <-.
Qed.

Lemma backtest_strategy_inv data cap fee frame :
  backtest_strategy data cap fee = Ok frame ->
  exists fin,
    backtest_loop fee (initial_ledger cap) data = Ok fin /\
    frame = mkFrame data (portfolio_values fin) (total_fees fin) (positions fin)
                    (trades fin) (daily_returns fin) /\
    length (positions fin) = length data.
Proof.
  unfold backtest_strategy.
  destruct (backtest_loop fee (initial_ledger cap) data) as [fin|e]; simpl;
    [|discriminate].
  unfold set_column.
  destruct (length (portfolio_values fin) =? length data)%nat; simpl; [|discriminate].
  destruct (length (positions fin) =? length data)%nat eqn:Ep; simpl; [|discriminate].
  destruct (length (trades fin) =? length data)%nat; simpl; [|discriminate].
  destruct (length (daily_returns fin) =? length data)%nat; simpl; [|discriminate].
  intro H. injection H as <-. exists fin. repeat split. now apply Nat.eqb_eq.
Qed.

(** C8 (amended).  With positive closing prices and a fee rate f >= 0, if the
    run at fee rate f and the run at fee rate 0 hold the same number of shares
    after every row, then both loops complete and the portfolio value of the
    run at fee rate f is at most that of the run at fee rate 0 on every row,
    the last one included. *)
Theorem fee_sensitivity_equal_holdings (data : list row) (initial_capital fee : Q) :
  0 <= fee ->
  Forall (fun r => 0 < Close r) data ->
  (forall t stf st0,
      ledger_after data initial_capital fee t = Ok stf ->
      ledger_after data initial_capital 0 t = Ok st0 ->
      holdings stf = holdings st0) ->
  exists ff f0,
    backtest_loop fee (initial_ledger initial_capital) data = Ok ff /\
    backtest_loop 0 (initial_ledger initial_capital) data = Ok f0 /\
    Forall2 Qle (portfolio_values ff) (portfolio_values f0) /\
    (forall vf v0,
        iloc_last (portfolio_values ff) = Ok vf ->
        iloc_last (portfolio_values f0) = Ok v0 ->
        vf <= v0) /\
    (forall frame_f frame_0,
        backtest_strategy data initial_capital fee = Ok frame_f ->
        backtest_strategy data initial_capital 0 = Ok frame_0 ->
        Forall2 Qle (PortfolioValue frame_f) (PortfolioValue frame_0)).
Proof.
  intros Hf Hd Hsame.
  destruct (backtest_loop_total fee (initial_ledger initial_capital) data
              (positive_nonzero _ Hd)) as [ff Hff].
  destruct (backtest_loop_total 0 (initial_ledger initial_capital) data
              (positive_nonzero _ Hd)) as [f0 Hf0].
  exists ff, f0. split; [exact Hff|]. split; [exact Hf0|].
  destruct (backtest_loop_lockstep fee data Hf Hd _ _ _ _ eq_refl (Qle_refl _)
              Hsame Hff Hf0) as [xf [x0 [Hxf [Hx0 Hx]]]].
  simpl in Hxf, Hx0. rewrite Hxf, Hx0.
  split; [exact Hx|]. split.
  - intros vf v0. now apply Forall2_iloc_last.
  - intros frame_f frame_0 H1 H2.
    destruct (backtest_strategy_inv _ _ _ _ H1) as [ff' [Hff' [-> _]]].
    destruct (backtest_strategy_inv _ _ _ _ H2) as [f0' [Hf0' [-> _]]].
    rewrite Hff in Hff'. rewrite Hf0 in Hf0'.
    injection Hff' as <-. injection Hf0' as <-. simpl. now rewrite Hxf, Hx0.
Qed.

(** *** The [Positions] column *)

Lemma step_positions fee st r st' :
  ~ Close r == 0 ->
  step fee st r = Ok st' ->
  length (positions st') =
    if skipped_buy st r then length (positions st) else S (length (positions st)).
Proof.
  intros Hp H. apply Qeq_bool_false_iff in Hp.
  destruct (step_inv _ _ _ _ H) as [st1 [tr [He ->]]]. simpl.
  unfold skipped_buy. unfold execute_signal, int_floordiv in He. rewrite Hp in He.
  destruct ((Signal r =? 1) && (holdings st =? 0))%Z; cbn [bind andb] in *.
  - destruct (Qfloor (cash st / Close r) >? 0)%Z; injection He as <- <-; simpl;
      rewrite ?length_app; simpl; lia.
  - destruct ((Signal r =? -1) && (holdings st >? 0))%Z; injection He as <- <-;
      simpl; rewrite length_app; simpl; lia.
Qed.

Lemma backtest_loop_positions_le fee st data fin :
  Forall (fun r => ~ Close r == 0) data ->
  backtest_loop fee st data = Ok fin ->
  (length (positions fin) <= length (positions st) + length data)%nat.
Proof.
  intro Hd. revert st. induction Hd as [|r data Hr _ IH]; intros st H; simpl in H.
  - injection H as <-. lia.
  - destruct (step fee st r) as [st1|e] eqn:Es; simpl in H; [|discriminate].
    pose proof (step_positions _ _ _ _ Hr Es) as Hs. specialize (IH _ H).
    destruct (skipped_buy st r); simpl; lia.
Qed.

Lemma backtest_loop_positions_eq fee st data fin :
  Forall (fun r => ~ Close r == 0) data ->
  backtest_loop fee st data = Ok fin ->
  (forall k stk r,
      backtest_loop fee st (firstn k data) = Ok stk ->
      nth_error data k = Some r -> skipped_buy stk r = false) ->
  length (positions fin) = (length (positions st) + length data)%nat.
Proof.
  intro Hd. revert st. induction Hd as [|r data Hr _ IH]; intros st H Hno; simpl in H.
  - injection H as <-. simpl. lia.
  - destruct (step fee st r) as [st1|e] eqn:Es; simpl in H; [|discriminate].
    pose proof (step_positions _ _ _ _ Hr Es) as Hs.
    rewrite (Hno 0%nat st r eq_refl eq_refl) in Hs.
    rewrite (IH _ H); [simpl; lia|].
    intros k stk r' Hk Hr'. apply (Hno (S k)); [|exact Hr'].
    cbn [firstn backtest_loop]. now rewrite Es.
Qed.

Lemma set_column_ok {A} n (values : list A) :
  length values = n -> set_column n values = Ok values.
Proof.
  intro H. unfold set_column. apply Nat.eqb_eq in H. now rewrite H.
Qed.

(** In exact arithmetic the simulator returns when no Buy signal is skipped
    for lack of cash.  On doubles [int] has two more ways to raise, which
    [int_floordiv] does not have: a quotient beyond the range of the doubles
    and a cash that is [inf] or [nan] (see [Doubles.int]). *)
Lemma backtest_strategy_returns data cap fee :
  Forall (fun r => ~ Close r == 0) data ->
  (forall t st r,
      ledger_before data cap fee t = Ok st ->
      nth_error data t = Some r -> skipped_buy st r = false) ->
  exists frame, backtest_strategy data cap fee = Ok frame /\
    length (PortfolioValue frame) = length data /\
    length (Positions frame) = length data /\
    length (Trades frame) = length data /\
    length (StrategyDailyReturn frame) = length data.
Proof.
  intros Hd Hno.
  destruct (backtest_loop_total fee (initial_ledger cap) data Hd) as [fin Hfin].
  destruct (backtest_loop_records _ _ _ _ Hfin) as [[new [Hnew Hlen]] [Htr Hdr]].
  pose proof (backtest_loop_positions_eq _ _ _ _ Hd Hfin Hno) as Hpos.
  simpl in Hnew, Htr, Hdr, Hpos. rewrite <- Hnew in Hlen.
  unfold backtest_strategy. rewrite Hfin. cbn [bind].
  rewrite !set_column_ok by assumption. cbn [bind].
  eexists. split; [reflexivity|]. simpl. auto.
Qed.

(** The simulator raises as soon as one Buy signal is skipped for lack of
    cash: that row leaves the [positions] list one cell short. *)
Lemma backtest_strategy_skipped_buy_raises data cap fee t st r :
  Forall (fun r => ~ Close r == 0) data ->
  ledger_before data cap fee t = Ok st ->
  nth_error data t = Some r ->
  skipped_buy st r = true ->
  backtest_strategy data cap fee =
    Raise (ValueError "Length of values does not match length of index").
Proof.
  intros Hd Hst Hr Hskip.
  destruct (backtest_loop_total fee (initial_ledger cap) data Hd) as [fin Hfin].
  destruct (backtest_loop_records _ _ _ _ Hfin) as [[new [Hnew Hlen]] _].
  simpl in Hnew. rewrite <- Hnew in Hlen.
  assert (Hlt : (length (positions fin) < length data)%nat).
  { destruct (backtest_loop_prefix _ _ _ _ (S t) Hfin) as [st1 [H1 Hrest]].
    rewrite (firstn_S_nth_error _ _ _ Hr), backtest_loop_app in H1.
    unfold ledger_before in Hst. rewrite Hst in H1. cbn [bind backtest_loop] in H1.
    destruct (step fee st r) as [st2|e] eqn:Es; simpl in H1; [|discriminate].
    injection H1 as ->.
    assert (Hrt : ~ Close r == 0).
    { rewrite Forall_forall in Hd. eapply Hd, nth_error_In, Hr. }
    pose proof (step_positions _ _ _ _ Hrt Es) as Hs. rewrite Hskip in Hs.
    pose proof (backtest_loop_positions_le _ _ _ _ (Forall_firstn_of _ t _ Hd) Hst) as H0.
    pose proof (backtest_loop_positions_le _ _ _ _ (Forall_skipn_of _ (S t) _ Hd) Hrest) as H2.
    assert (Ht : (t < length data)%nat) by (apply nth_error_Some; congruence).
    rewrite length_firstn in H0. rewrite length_skipn in H2. simpl in H0. lia. }
  unfold backtest_strategy. rewrite Hfin. cbn [bind].
  rewrite set_column_ok by assumption. cbn [bind]. unfold set_column at 1.
  assert (E : (length (positions fin) =? length data)%nat = false)
    by (apply Nat.eqb_neq; lia).
  now rewrite E.
Qed.

(** C1 (the code departs from it).  In a run over positive closing prices,
    if some row carries a Buy signal while the ledger is flat and the cash
    sizes to no share, the loop appends nothing to [positions] on that row,
    and the assignment of the [Positions] column raises once the loop is
    over: the simulator does not return. *)
Theorem unaffordable_buy_raises
        (data : list row) (initial_capital fee : Q) (t : nat) (st : ledger) (r : row) :
  Forall (fun r => 0 < Close r) data ->
  ledger_before data initial_capital fee t = Ok st ->
  nth_error data t = Some r ->
  Signal r = 1%Z ->
  holdings st = 0%Z ->
  (Qfloor (cash st / Close r) <= 0)%Z ->
  backtest_strategy data initial_capital fee =
    Raise (ValueError "Length of values does not match length of index").
Proof.
  intros Hd Hst Hr Hs Hh Hshares.
  apply (backtest_strategy_skipped_buy_raises data initial_capital fee t st r);
    trivial.
  - now apply positive_nonzero.
  - unfold skipped_buy. rewrite Hs, Hh. simpl.
    destruct (Qfloor (cash st / Close r) >? 0)%Z eqn:E; [|reflexivity].
    apply Z.gtb_lt in E. lia.
Qed.

(** The ledger left by the loop on a Buy signal at a close of 100 with a cash
    of 50: a value, a trade marker and a return are recorded, no position. *)
Lemma unaffordable_buy_ledger :
  backtest_loop 0 (initial_ledger 50) [mkRow 100 1] =
    Ok (mkLedger 50 0 0 [50 + inject_Z 0 * 100] [] [0%Z]
                 [(50 + inject_Z 0 * 100 - 50) / 50] (50 + inject_Z 0 * 100)).
Proof.
  reflexivity.
Qed.

(** ** Constant prices *)

Section ConstantPrices.

Variable c : Q.

Lemma rsi_delta_constant n : Forall nan_or_zero (rsi_delta (repeat c n)).
Proof.
  unfold rsi_delta, diff.
  apply Forall_map2 with (P := eq (Fin c)) (R := fun y => y = NaN \/ y = Fin c).
  - intros x y <- [-> | ->]; [now left | right; simpl; lra].
  - rewrite map_repeat. apply Forall_forall. intros x Hx.
    now apply repeat_spec in Hx.
  - unfold shift. apply Forall_firstn_of. constructor; [now left|].
    rewrite map_repeat. apply Forall_forall. intros x Hx.
    apply repeat_spec in Hx. now right.
Qed.

Lemma rsi_gain_constant n : Forall zero_fin (rsi_gain (repeat c n)).
Proof.
  unfold rsi_gain, fillna. rewrite where_map. apply Forall_map, Forall_map.
  eapply Forall_impl; [|apply rsi_delta_constant].
  intros d [-> | Hd]; [simpl; lra|].
  destruct d as [q| | |]; simpl in Hd; try tauto.
  unfold fgt, flt. assert (E : Qlt_bool 0 q = false) by (apply Qlt_bool_false_iff; lra).
  rewrite E. simpl. lra.
Qed.

Lemma rsi_loss_constant n : Forall zero_fin (rsi_loss (repeat c n)).
Proof.
  unfold rsi_loss, fillna. rewrite where_map. apply Forall_map, Forall_map, Forall_map.
  eapply Forall_impl; [|apply rsi_delta_constant].
  intros d [-> | Hd]; [simpl; lra|].
  destruct d as [q| | |]; simpl in Hd; try tauto.
  unfold flt. assert (E : Qlt_bool q 0 = false) by (apply Qlt_bool_false_iff; lra).
  rewrite E. simpl. lra.
Qed.

End ConstantPrices.

Lemma map2_rsi_cell_zero xs ys :
  Forall zero_fin xs -> Forall zero_fin ys -> length xs = length ys ->
  map2 rsi_cell xs ys = repeat (Fin 50) (length xs).
Proof.
  intro Hx. revert ys. unfold map2.
  induction Hx as [|x xs Hx0 _ IH]; intros ys Hy Hlen; [reflexivity|].
  destruct Hy as [|y ys Hy0 Hy]; [discriminate|]. simpl.
  rewrite rsi_cell_zero_zero by assumption. f_equal. apply IH; [assumption|].
  simpl in Hlen. lia.
Qed.

Lemma calculate_rsi_constant c n period :
  (1 <= period)%nat -> calculate_rsi (repeat c n) period = Ok (repeat (Fin 50) n).
Proof.
  intro Hp. rewrite calculate_rsi_ok by exact Hp. f_equal.
  unfold rsi_avg_gain, rsi_avg_loss.
  rewrite map2_rsi_cell_zero.
  - now rewrite rolling_mean_length, rsi_gain_length, repeat_length.
  - apply rolling_mean_zero; [exact Hp | apply rsi_gain_constant].
  - apply rolling_mean_zero; [exact Hp | apply rsi_loss_constant].
  - now rewrite !rolling_mean_length, rsi_gain_length, rsi_loss_length.
Qed.

Lemma flt_fle_false a b : flt a b = true -> fle b a = true -> False.
Proof.
  destruct a as [a| | |], b as [b| | |]; simpl; try discriminate.
  intros H1 H2. apply Qlt_bool_iff in H1. apply Qle_bool_iff in H2. lra.
Qed.

(** No threshold is crossed by an indicator that stays at one value. *)
Lemma signal_at_same v ob os : signal_at v v ob os = 0%Z.
Proof.
  unfold signal_at, fge, fgt.
  destruct (flt v ob) eqn:E1, (fle ob v) eqn:E2; simpl;
    try (exfalso; exact (flt_fle_false _ _ E1 E2));
    destruct (flt os v) eqn:E3, (fle v os) eqn:E4; simpl; trivial;
    exfalso; exact (flt_fle_false _ _ E3 E4).
Qed.

Lemma signal_at_nan v ob os : signal_at v NaN ob os = 0%Z.
Proof.
  unfold signal_at, fge. now rewrite fle_nan_l, fle_nan_r, !andb_false_r.
Qed.

Lemma generate_signals_constant v n ob os :
  generate_signals (repeat v n) ob os = repeat 0%Z n.
Proof.
  apply nth_error_ext. intro t. rewrite nth_error_generate_signals.
  destruct (Nat.ltb_spec t n) as [Ht | Ht].
  - rewrite !nth_error_repeat by exact Ht.
    destruct t as [|t].
    + destruct n; [lia|]. simpl. now rewrite signal_at_nan.
    + rewrite nth_error_shift_S by (now rewrite repeat_length).
      rewrite nth_error_repeat by lia. now rewrite signal_at_same.
  - assert (H1 : nth_error (repeat v n) t = None)
      by (apply nth_error_None; now rewrite repeat_length).
    assert (H2 : nth_error (repeat 0%Z n) t = None)
      by (apply nth_error_None; now rewrite repeat_length).
    now rewrite H1, H2.
Qed.

Lemma make_rows_repeat c s n :
  make_rows (repeat c n) (repeat s n) = repeat (mkRow c s) n.
Proof.
  unfold make_rows, map2. induction n; simpl; [reflexivity | now f_equal].
Qed.

(** A flat ledger stays as it is over rows that all hold. *)
Lemma backtest_loop_hold fee c n st :
  exists fin,
    backtest_loop fee st (repeat (mkRow c 0) n) = Ok fin /\
    cash fin = cash st /\ holdings fin = holdings st /\
    total_fees fin = total_fees st /\
    length (positions fin) = (length (positions st) + n)%nat /\
    exists new, portfolio_values fin = portfolio_values st ++ new /\
      Forall (fun v => v = cash st + inject_Z (holdings st) * c) new.
Proof.
  revert st. induction n as [|n IH]; intro st.
  - exists st. simpl. repeat split; try lia. exists []. now rewrite app_nil_r.
  - cbn [repeat backtest_loop]. unfold step, execute_signal. cbn [Signal Close].
    change ((0 =? 1)%Z && (holdings st =? 0)%Z) with false.
    change ((0 =? -1)%Z && (holdings st >? 0)%Z) with false.
    cbn [bind fst snd].
    match goal with
    | |- context [backtest_loop fee ?s _] => destruct (IH s) as
          [fin [Hfin [Hc [Hh [Hf [Hp [new [Hnew Hall]]]]]]]]
    end.
    exists fin. simpl in *. rewrite Hfin, Hc, Hh, Hf, Hp, length_app. simpl.
    repeat split; try lia.
    eexists. rewrite Hnew, <- app_assoc. split; [reflexivity|].
    constructor; [reflexivity | exact Hall].
Qed.

(** Drawdown of a value series that never moves. *)

Lemma expanding_max_from_constant cap acc xs :
  acc = NaN \/ eq_cell cap acc ->
  Forall (eq_cell cap) xs ->
  Forall (eq_cell cap) (expanding_max_from acc xs).
Proof.
  intros Hacc Hxs. revert acc Hacc.
  induction Hxs as [|x xs Hx _ IH]; intros acc Hacc; simpl; [constructor|].
  assert (Hm : eq_cell cap (fmax acc x)).
  { unfold fmax. destruct x as [q| | |]; simpl in Hx; try tauto. simpl.
    destruct Hacc as [-> | Hacc]; [exact Hx|].
    destruct acc as [a| | |]; simpl in Hacc; try tauto. simpl.
    now destruct (Qlt_bool a q). }
  constructor; [exact Hm|]. apply IH. now right.
Qed.

Lemma expanding_max_from_length acc xs :
  length (expanding_max_from acc xs) = length xs.
Proof.
  revert acc. induction xs as [|x xs IH]; intro acc; simpl; [reflexivity|].
  now rewrite IH.
Qed.

Lemma fold_fmin_zero xs acc :
  Forall zero_fin xs -> (acc = NaN /\ xs <> []) \/ zero_fin acc ->
  zero_fin (fold_left fmin xs acc).
Proof.
  intro H. revert acc. induction H as [|x xs Hx _ IH]; intros acc Hacc; simpl.
  - destruct Hacc as [[_ Hne] | Hz]; [congruence | exact Hz].
  - apply IH. right. unfold fmin.
    destruct x as [q| | |]; simpl in Hx; try tauto. simpl.
    destruct Hacc as [[-> _] | Hz]; [exact Hx|].
    destruct acc as [a| | |]; simpl in Hz; try tauto. simpl.
    now destruct (Qlt_bool q a).
Qed.

Lemma drawdown_series_length xs : length (drawdown_series xs) = length xs.
Proof.
  unfold drawdown_series, expanding_max.
  assert (H : length (map2 fsub xs (expanding_max_from NaN xs)) = length xs).
  { apply map2_length. now rewrite expanding_max_from_length. }
  rewrite map2_length; [exact H|]. now rewrite H, expanding_max_from_length.
Qed.

Lemma drawdown_constant cap vals :
  0 < cap -> vals <> [] -> Forall (fun v => v == cap) vals ->
  zero_fin (series_min (drawdown_series (map Fin vals))).
Proof.
  intros Hcap Hne Hall.
  assert (Hcells : Forall (eq_cell cap) (map Fin vals)).
  { apply Forall_map. eapply Forall_impl; [|exact Hall]. now intros v Hv. }
  pose proof (expanding_max_from_constant cap NaN _ (or_introl eq_refl) Hcells) as Hmax.
  unfold series_min, drawdown_series, expanding_max. apply fold_fmin_zero.
  - apply Forall_map2 with (P := zero_fin) (R := eq_cell cap).
    + intros [x| | |] [m| | |]; simpl; try tauto. intros Hx Hm.
      assert (E : Qeq_bool m 0 = false) by (apply Qeq_bool_false_iff; lra).
      rewrite E. simpl. now apply Qdiv_zero.
    + apply Forall_map2 with (P := eq_cell cap) (R := eq_cell cap); trivial.
      intros [x| | |] [m| | |]; simpl; try tauto. intros Hx Hm. lra.
    + exact Hmax.
  - left. split; [reflexivity|]. intro Hnil.
    apply (f_equal (@length fval)) in Hnil.
    change (length (drawdown_series (map Fin vals)) = 0%nat) in Hnil.
    rewrite drawdown_series_length, length_map in Hnil.
    destruct vals; simpl in Hnil; [congruence | discriminate].
Qed.

Lemma iloc_last_In {A} (xs : list A) x : iloc_last xs = Ok x -> In x xs.
Proof.
  unfold iloc_last. destruct (rev xs) as [|y r] eqn:E; [discriminate|].
  intro H. injection H as ->. apply in_rev. rewrite E. now left.
Qed.

Lemma calculate_performance_metrics_strategy sqrt data initial_capital :
  PortfolioValue data <> [] -> Rows data <> [] ->
  exists m final,
    calculate_performance_metrics sqrt data initial_capital = Ok m /\
    iloc_last (PortfolioValue data) = Ok final /\
    portfolio_value m = final /\
    total_return m = fsub (fdiv final initial_capital) 1 /\
    max_drawdown m = series_min (drawdown_series (map Fin (PortfolioValue data))).
Proof.
  intros Hpv Hrows. unfold calculate_performance_metrics.
  destruct (iloc_last_nonempty _ Hpv) as [final ->]. simpl bind.
  destruct (Rows data) as [|r0 rows] eqn:Er; [contradiction|].
  simpl map at 1. cbn [iloc_first bind].
  match goal with
  | |- context [iloc_last ?l] =>
      destruct (iloc_last_nonempty l) as [bh E]; [discriminate | rewrite E]
  end.
  simpl bind. eexists. exists final. split; [reflexivity|]. simpl. repeat split.
Qed.

(** C5.  On a price series that stays at one close c over n >= 1 rows, for any
    lookback period >= 1, any thresholds, any fee rate and a positive initial
    capital: the indicator is 50 on every row, every signal is Hold, the
    simulator returns and its portfolio value is the initial capital on every
    row, the total return is 0 and the maximum drawdown is 0. *)
Theorem constant_prices_neutral
        (c initial_capital fee : Q) (n period : nat) (ob os : fval) (sqrt : Q -> Q) :
  (1 <= n)%nat -> (1 <= period)%nat -> 0 < initial_capital ->
  exists frame m,
    calculate_rsi (repeat c n) period = Ok (repeat (Fin 50) n) /\
    generate_signals (repeat (Fin 50) n) ob os = repeat 0%Z n /\
    backtest_strategy (make_rows (repeat c n) (repeat 0%Z n)) initial_capital fee
      = Ok frame /\
    length (PortfolioValue frame) = n /\
    Forall (fun v => v == initial_capital) (PortfolioValue frame) /\
    calculate_performance_metrics sqrt frame initial_capital = Ok m /\
    feq (total_return m) 0 /\
    feq (max_drawdown m) 0.
Proof.
  intros Hn Hp Hcap.
  destruct (backtest_loop_hold fee c n (initial_ledger initial_capital))
    as [fin [Hfin [Hc [Hh [Hf [Hpos [new [Hnew Hall]]]]]]]].
  destruct (backtest_loop_records _ _ _ _ Hfin) as [[new' [Hnew' Hlen]] [Htr Hdr]].
  simpl in Hc, Hh, Hf, Hpos, Hnew, Hall, Hnew', Htr, Hdr.
  rewrite repeat_length in Hlen, Htr, Hdr. rewrite <- Hnew' in Hlen.
  set (frame := mkFrame (repeat (mkRow c 0) n) (portfolio_values fin) (total_fees fin)
                        (positions fin) (trades fin) (daily_returns fin)).
  assert (Hframe : backtest_strategy (make_rows (repeat c n) (repeat 0%Z n))
                     initial_capital fee = Ok frame).
  { unfold backtest_strategy. rewrite make_rows_repeat, Hfin. cbn [bind].
    rewrite !set_column_ok by (now rewrite repeat_length). reflexivity. }
  assert (Hvals : Forall (fun v => v == initial_capital) (PortfolioValue frame)).
  { simpl. rewrite Hnew. eapply Forall_impl; [|exact Hall].
    intros v ->. unfold inject_Z. ring. }
  assert (Hne : PortfolioValue frame <> []).
  { simpl. intro E. rewrite E in Hlen. simpl in Hlen. lia. }
  assert (Hrows : Rows frame <> []).
  { simpl. destruct n; [lia | discriminate]. }
  destruct (calculate_performance_metrics_strategy sqrt frame initial_capital Hne Hrows)
    as [m [final [Hm [Hlast [_ [Htot Hdd]]]]]].
  exists frame, m.
  split; [now apply calculate_rsi_constant|].
  split; [apply generate_signals_constant|].
  split; [exact Hframe|]. split; [exact Hlen|]. split; [exact Hvals|].
  split; [exact Hm|]. split.
  - rewrite Htot. apply iloc_last_In in Hlast.
    rewrite Forall_forall in Hvals. specialize (Hvals _ Hlast).
    unfold fdiv.
    assert (E : Qeq_bool initial_capital 0 = false) by (apply Qeq_bool_false_iff; lra).
    rewrite E. simpl. rewrite Hvals. field. lra.
  - rewrite Hdd. apply zero_fin_feq. now apply (drawdown_constant initial_capital).
Qed.

(** ** The driver *)

Lemma dict_get_in d key :
  In key (map fst d) -> exists v, dict_get d key = Ok v.
Proof.
  induction d as [|[k v] d IH]; simpl; [tauto|].
  intros [-> | H].
  - rewrite String.eqb_refl. now exists v.
  - destruct (String.eqb k key); [now exists v | now apply IH].
Qed.

Section DriverProperties.

Variable parse_float : string -> option fval.
Variable get_historical_data : string -> string -> string -> list Q.
Variable sqrt : Q -> Q.

(** C6.  With a company picked from the menu, a run whose capital entry reads
    a value <= 0, or whose fee entry reads a negative rate, or whose
    overbought or oversold entry reads a value outside (0,100), or whose
    oversold entry reads a value >= the overbought one, only shows the input
    error box and returns: no data is fetched and no stage of the core is
    called. *)
Theorem invalid_configuration_rejected (self : widgets) :
  In (company_var self) (map fst COMPANIES) ->
  (exists v, parse_float (capital_entry self) = Some v /\ fle v 0 = true) \/
  (exists v, parse_float (fee_entry self) = Some v /\ flt (fdiv v 100) 0 = true) \/
  (exists v, parse_float (overbought_entry self) = Some v /\
             flt 0 v && flt v 100 = false) \/
  (exists v, parse_float (oversold_entry self) = Some v /\
             flt 0 v && flt v 100 = false) \/
  (exists ob os, parse_float (overbought_entry self) = Some ob /\
                 parse_float (oversold_entry self) = Some os /\
                 fge os ob = true) ->
  exists msg,
    run_backtest parse_float get_historical_data sqrt self =
      ([showerror "Input Error" msg], Ok tt).
Proof.
  intros Hc Hbad. unfold run_backtest, read_inputs, py_float.
  destruct (dict_get_in _ _ Hc) as [ticker ->]. cbn [bind].
  destruct (parse_float (capital_entry self)) as [cap|] eqn:Ecap; cbn [bind];
    [|eexists; reflexivity].
  destruct (fle cap 0) eqn:E1; [eexists; reflexivity|].
  destruct (parse_float (fee_entry self)) as [fee|] eqn:Efee; cbn [bind];
    [|eexists; reflexivity].
  destruct (flt (fdiv fee 100) 0) eqn:E2; [eexists; reflexivity|].
  destruct (parse_float (overbought_entry self)) as [ob|] eqn:Eob; cbn [bind];
    [|eexists; reflexivity].
  destruct (flt 0 ob && flt ob 100) eqn:E3; cbn [negb]; [|eexists; reflexivity].
  destruct (parse_float (oversold_entry self)) as [os|] eqn:Eos; cbn [bind];
    [|eexists; reflexivity].
  destruct (flt 0 os && flt os 100) eqn:E4; cbn [negb]; [|eexists; reflexivity].
  destruct (fge os ob) eqn:E5; [eexists; reflexivity|].
  exfalso.
  destruct Hbad as [[v [H1 H2]] | [[v [H1 H2]] | [[v [H1 H2]] | [[v [H1 H2]] |
                   [ob' [os' [H1 [H2 H3]]]]]]]]; congruence.
Qed.

(** C7.  When the inputs are accepted and the collaborator returns no row, the
    run fetches the data once, shows the information box and returns: the
    indicator, the signals, the simulator and the metrics are not called, and
    nothing is raised. *)
Theorem empty_series_short_circuits (self : widgets) (cfg : config) :
  read_inputs parse_float self = Ok cfg ->
  get_historical_data (cfg_ticker cfg) START_DATE END_DATE = [] ->
  run_backtest parse_float get_historical_data sqrt self =
    ([call_get_historical_data (cfg_ticker cfg) START_DATE END_DATE;
      showinfo "No Data" "No data available for the selected parameters."],
     Ok tt).
Proof.
  intros Hin Hdata. unfold run_backtest. rewrite Hin, Hdata. reflexivity.
Qed.

End DriverProperties.

(** * Concrete runs *)

(** The driver reaches that raise on plain inputs:
    with a capital of 50 the first Buy signal of [crossing_close] comes at a
    close of 100, and the run dies inside [backtest_strategy]. *)
Lemma run_backtest_unaffordable_buy :
  run_backtest int_numeral crossing_data sqrt_approx small_capital =
    ([call_get_historical_data "JPM" START_DATE END_DATE;
      call_calculate_rsi; call_generate_signals; call_backtest_strategy],
     Raise (ValueError "Length of values does not match length of index")).
Proof.
  vm_compute. reflexivity.
Qed.

(** The claim C4 fails as stated: after one rise the rolling average loss is 0
    and the indicator is 100, not 50. *)
Lemma zero_avg_loss_indicator_is_100 :
  nth_error (rsi_avg_loss [100; 110] 14) 1 = Some (Fin (0 # 2)) /\
  feq (Fin (0 # 2)) 0 /\
  calculate_rsi [100; 110] 14 = Ok [Fin 50; Fin 100] /\
  ~ feq (Fin 100) 50.
Proof.
  split; [vm_compute; reflexivity|]. split; [reflexivity|].
  split; [vm_compute; reflexivity|]. simpl. intro H. discriminate H.
Qed.

(** The claim C8 fails as stated: on [crossing_close] with thresholds 70 and
    30 and a capital of 1000 the strategy buys, sells and buys again; at a fee
    rate of 1% the second purchase is 23 shares instead of 24, and after the
    last fall the run with fees ends at 246.5 against 240 without. *)
Lemma fee_run_ends_higher :
  exists rsi frame_f frame_0,
    calculate_rsi crossing_close 14 = Ok rsi /\
    generate_signals rsi 70 30 = [0; 0; 1; 0; -1; 0; 1; 0]%Z /\
    backtest_strategy (make_rows crossing_close (generate_signals rsi 70 30))
                      1000 (1 # 100) = Ok frame_f /\
    backtest_strategy (make_rows crossing_close (generate_signals rsi 70 30))
                      1000 0 = Ok frame_0 /\
    Trades frame_f = [0; 0; 1; 0; -1; 0; 1; 0]%Z /\
    Trades frame_0 = [0; 0; 1; 0; -1; 0; 1; 0]%Z /\
    exists vf v0,
      iloc_last (PortfolioValue frame_f) = Ok vf /\
      iloc_last (PortfolioValue frame_0) = Ok v0 /\
      vf == 493 # 2 /\ v0 == 240 /\ ~ vf <= v0.
Proof.
  eexists. eexists. eexists.
  split; [vm_compute; reflexivity|].
  split; [vm_compute; reflexivity|].
  split; [vm_compute; reflexivity|].
  split; [vm_compute; reflexivity|].
  split; [reflexivity|]. split; [reflexivity|].
  eexists. eexists.
  split; [vm_compute; reflexivity|].
  split; [vm_compute; reflexivity|].
  split; [reflexivity|]. split; [reflexivity|].
  intro H. vm_compute in H. apply H. reflexivity.
Qed.

(** [unaffordable_buy_raises] on one row: a Buy signal at a close of 100 with
    a cash of 50. *)
Lemma unaffordable_buy_raises_witness :
  backtest_strategy [mkRow 100 1] 50 0 =
    Raise (ValueError "Length of values does not match length of index").
Proof.
  apply (unaffordable_buy_raises [mkRow 100 1] 50 0 0%nat
                                 (initial_ledger 50) (mkRow 100 1)).
  - repeat constructor.
  - reflexivity.
  - reflexivity.
  - reflexivity.
  - reflexivity.
  - vm_compute. discriminate.
Defined.

(** [portfolio_value_invariant] on a buy at 100 followed by a sell at 110. *)
Lemma portfolio_value_invariant_witness :
  exists fin,
    backtest_loop (1 # 100) (initial_ledger 1000) round_trip = Ok fin /\
    length (portfolio_values fin) = 2%nat.
Proof.
  destruct (proj2 (portfolio_value_invariant round_trip 1000 (1 # 100))) as [fin Hfin].
  - repeat constructor; intro H; discriminate H.
  - exists fin. split; [exact Hfin|].
    exact (proj1 (proj1 (portfolio_value_invariant round_trip 1000 (1 # 100)) fin Hfin)).
Defined.

(** [generate_signals_crossings] on a column that crosses both lines. *)
Lemma generate_signals_crossings_witness :
  flt 30 70 = true /\
  length (generate_signals [Fin 20; Fin 40; Fin 80; Fin 60] 70 30) = 4%nat.
Proof.
  split; [reflexivity|].
  exact (proj1 (generate_signals_crossings [Fin 20; Fin 40; Fin 80; Fin 60] 70 30
                                            eq_refl)).
Defined.

(** [zero_loss_and_zero_volatility_defaults] after one rise, and on a frame
    whose values never move. *)
Lemma zero_loss_and_zero_volatility_defaults_witness :
  (exists rsi, calculate_rsi [100; 110] 14 = Ok rsi /\
     ((feq (Fin (10 # 2)) 0 /\ nth_error rsi 1 = Some (Fin 50)) \/
      (flt 0 (Fin (10 # 2)) = true /\
       exists v, nth_error rsi 1 = Some v /\ feq v 100))) /\
  (exists m, calculate_performance_metrics sqrt_approx flat_frame 1000 = Ok m /\
     (feq (volatility m) 0 -> sharpe m = Fin 0) /\
     (feq (bh_volatility m) 0 -> bh_sharpe_ratio m = Fin 0)).
Proof.
  split.
  - apply (proj1 zero_loss_and_zero_volatility_defaults
                 [100; 110] 14%nat 1%nat (Fin (10 # 2)) (Fin (0 # 2))).
    + lia.
    + vm_compute. reflexivity.
    + vm_compute. reflexivity.
    + reflexivity.
  - apply (proj2 zero_loss_and_zero_volatility_defaults sqrt_approx flat_frame 1000);
      discriminate.
Defined.

(** [constant_prices_neutral] on three closes of 100. *)
Lemma constant_prices_neutral_witness :
  exists frame m,
    calculate_rsi (repeat 100 3) 14 = Ok (repeat (Fin 50) 3) /\
    generate_signals (repeat (Fin 50) 3) 70 30 = repeat 0%Z 3 /\
    backtest_strategy (make_rows (repeat 100 3) (repeat 0%Z 3)) 1000 (1 # 1000)
      = Ok frame /\
    length (PortfolioValue frame) = 3%nat /\
    Forall (fun v => v == 1000) (PortfolioValue frame) /\
    calculate_performance_metrics sqrt_approx frame 1000 = Ok m /\
    feq (total_return m) 0 /\
    feq (max_drawdown m) 0.
Proof.
  apply (constant_prices_neutral 100 1000 (1 # 1000) 3 14 70 30 sqrt_approx).
  - lia.
  - lia.
  - reflexivity.
Defined.

(** [invalid_configuration_rejected] on overbought 30 and oversold 70. *)
Lemma invalid_configuration_rejected_witness :
  exists msg,
    run_backtest int_numeral no_data sqrt_approx inverted_thresholds =
      ([showerror "Input Error" msg], Ok tt).
Proof.
  apply (invalid_configuration_rejected int_numeral no_data sqrt_approx
                                        inverted_thresholds).
  - simpl. tauto.
  - right. right. right. right. exists (Fin 30), (Fin 70).
    split; [reflexivity|]. split; reflexivity.
Defined.

(** [empty_series_short_circuits] on the default entries. *)
Lemma empty_series_short_circuits_witness :
  run_backtest int_numeral no_data sqrt_approx default_inputs =
    ([call_get_historical_data "JPM" START_DATE END_DATE;
      showinfo "No Data" "No data available for the selected parameters."],
     Ok tt).
Proof.
  apply (empty_series_short_circuits int_numeral no_data sqrt_approx default_inputs
           (mkConfig "JPMorgan Chase & Co. (JPM)" "JPM" (Fin 10000)
                     (fdiv (Fin 0) (Fin 100)) (Fin 70) (Fin 30))).
  - reflexivity.
  - reflexivity.
Defined.

(** [fee_sensitivity_equal_holdings] on one round trip: both runs buy 10
    shares and sell them. *)
Lemma fee_sensitivity_equal_holdings_witness :
  exists ff f0,
    backtest_loop (1 # 100) (initial_ledger 1000) round_trip = Ok ff /\
    backtest_loop 0 (initial_ledger 1000) round_trip = Ok f0 /\
    Forall2 Qle (portfolio_values ff) (portfolio_values f0).
Proof.
  destruct (fee_sensitivity_equal_holdings round_trip 1000 (1 # 100))
    as [ff [f0 [Hff [Hf0 [Hle _]]]]].
  - intro H. discriminate H.
  - repeat constructor.
  - intros t stf st0. unfold ledger_after.
    destruct t as [|t].
    + intros H1 H2. vm_compute in H1, H2.
      injection H1 as <-. injection H2 as <-. reflexivity.
    + replace (firstn (S (S t)) round_trip) with round_trip
        by (destruct t; reflexivity).
      intros H1 H2. vm_compute in H1, H2.
      injection H1 as <-. injection H2 as <-. reflexivity.
  - exists ff, f0. split; [exact Hff|]. split; [exact Hf0 | exact Hle].
Defined.

(** [cumulative_fees_monotone] between the two rows of a round trip. *)
Lemma cumulative_fees_monotone_witness :
  exists st st',
    ledger_after round_trip 1000 (1 # 100) 0 = Ok st /\
    ledger_after round_trip 1000 (1 # 100) 1 = Ok st' /\
    total_fees st <= total_fees st'.
Proof.
  apply (cumulative_fees_monotone round_trip 1000 (1 # 100) 0 1).
  - intro H. discriminate H.
  - repeat constructor.
  - lia.
Defined.


(** The same row in exact arithmetic, on the rationals the two doubles stand
    for: the floor of the exact quotient is one less and the cash stays
    positive. *)
Lemma exact_sizing_at_100_04 :
  Doubles.to_Q Doubles.capital_1e18 = Some (1000000000000000000 # 1) /\
  Doubles.to_Q Doubles.close_100_04 = Some (7039689167533507 # 70368744177664) /\
  exists st,
    ledger_after [mkRow (7039689167533507 # 70368744177664) 1]
                 (1000000000000000000 # 1) 0 0 = Ok st /\
    holdings st = 9996001599360255%Z /\ 0 < cash st.
Proof.
  split; [vm_compute; reflexivity|].
  split; [vm_compute; reflexivity|].
  eexists. split; [vm_compute; reflexivity|].
  split; [reflexivity|]. vm_compute. reflexivity.
Qed.

(** Where no operation rounds the two arithmetics agree: the round trip
    bought at 100 and sold at 110 from a capital of 1000 ends with a cash of
    1100 at a fee rate of 0, and the buy at a fee rate of 1% leaves -10. *)
Lemma doubles_agree_on_round_trip :
  (exists st,
      Doubles.ledger_after
        [Doubles.mkRow (Doubles.of_int 100) 1; Doubles.mkRow (Doubles.of_int 110) (-1)]
        (Doubles.of_int 1000) PrimFloat.zero 1 = Ok st /\
      Doubles.holdings st = 0%Z /\ Doubles.to_Q (Doubles.cash st) = Some (1100 # 1)) /\
  (exists st,
      ledger_after round_trip 1000 0 1 = Ok st /\
      holdings st = 0%Z /\ cash st == 1100) /\
  (exists st,
      Doubles.ledger_after [Doubles.mkRow (Doubles.of_int 100) 1]
                           (Doubles.of_int 1000) Doubles.fee_0_01 0 = Ok st /\
      Doubles.holdings st = 10%Z /\ Doubles.to_Q (Doubles.cash st) = Some (-10 # 1)).
Proof.
  split; [|split]; eexists;
    (split; [vm_compute; reflexivity|]); split; vm_compute; reflexivity.
Qed.

(** [int] on doubles refuses the quotient of a capital of 1.7e308 by a close
    of 0.5, which is [inf]. *)
Lemma overflowing_quotient_raises :
  Doubles.ledger_after
    [Doubles.mkRow Doubles.close_0_5 1]
    Doubles.capital_1_7e308 PrimFloat.zero 0 = Raise OverflowError.
Proof. vm_compute. reflexivity. Qed.


(** * Further properties of the simulator *)

(** What one executed row does, by the trade marker it records. *)
Lemma step_cases fee st r st' :
  step fee st r = Ok st' ->
  exists tr,
    trades st' = trades st ++ [tr] /\
    ((tr = 1%Z /\ Signal r = 1%Z /\ holdings st = 0%Z /\ (0 < holdings st')%Z /\
      positions st' = positions st ++ [1%Z]) \/
     (tr = (-1)%Z /\ Signal r = (-1)%Z /\ (0 < holdings st)%Z /\ holdings st' = 0%Z /\
      positions st' = positions st ++ [0%Z]) \/
     (tr = 0%Z /\ holdings st' = holdings st /\ cash st' = cash st /\
      total_fees st' = total_fees st /\
      (positions st' = positions st \/
       positions st' = positions st ++ [last_position (positions st)]))).
Proof.
  intro H. destruct (step_inv _ _ _ _ H) as [st1 [tr [He ->]]].
  exists tr. split.
  { destruct (execute_signal_records _ _ _ _ _ _ He) as [_ [Htr _]].
    simpl. now rewrite Htr. }
  unfold execute_signal, int_floordiv in He.
  destruct ((Signal r =? 1) && (holdings st =? 0))%Z eqn:Eb.
  - apply andb_true_iff in Eb. destruct Eb as [Es Eh].
    apply Z.eqb_eq in Es. apply Z.eqb_eq in Eh.
    destruct (Qeq_bool (Close r) 0).
    { destruct (Qeq_bool (cash st) 0); discriminate He. }
    cbn [bind] in He.
    destruct (Qfloor (cash st / Close r) >? 0)%Z eqn:Ef; injection He as <- <-.
    + left. simpl. apply Z.gtb_lt in Ef. repeat split; trivial. lia.
    + right. right. simpl. repeat split. now left.
  - destruct ((Signal r =? -1) && (holdings st >? 0))%Z eqn:Es; injection He as <- <-.
    + apply andb_true_iff in Es. destruct Es as [Es Eh].
      apply Z.eqb_eq in Es. apply Z.gtb_lt in Eh.
      right. left. simpl. repeat split; trivial.
    + right. right. simpl. repeat split. now right.
Qed.

(** A property of the ledger kept by every row is kept by the loop. *)
Lemma backtest_loop_invariant (I : ledger -> Prop) fee data :
  (forall st r st', In r data -> I st -> step fee st r = Ok st' -> I st') ->
  forall st st', I st -> backtest_loop fee st data = Ok st' -> I st'.
Proof.
  induction data as [|r data IH]; intros Hstep st st' Hi H; simpl in H.
  - now injection H as <-.
  - destruct (step fee st r) as [st1|e] eqn:Es; simpl in H; [|discriminate].
    apply (IH (fun st r st' Hr => Hstep st r st' (or_intror Hr)) st1 st');
      [|exact H].
    apply (Hstep st r st1); [now left | exact Hi | exact Es].
Qed.

Lemma sum_snoc xs x :
  fold_right Z.add 0%Z (xs ++ [x]) = (fold_right Z.add 0%Z xs + x)%Z.
Proof.
  induction xs as [|y xs IH]; simpl; [lia | rewrite IH; lia].
Qed.

Lemma holding_flag_cases h : holding_flag h = 0%Z \/ holding_flag h = 1%Z.
Proof. unfold holding_flag. destruct (h >? 0)%Z; auto. Qed.

Lemma step_ledger_flags fee st r st' :
  ledger_flags st -> step fee st r = Ok st' -> ledger_flags st'.
Proof.
  intros [H0 [Hsum [Hlast Hall]]] H.
  destruct (step_cases _ _ _ _ H) as [tr [Htr Hc]].
  unfold ledger_flags. rewrite Htr, sum_snoc, Hsum.
  destruct Hc as [[-> [_ [Hh [Hh' Hp]]]] | [[-> [_ [Hh [Hh' Hp]]]] |
                  [-> [Hh [_ [_ Hp]]]]]].
  - rewrite Hp. unfold last_position. rewrite last_last.
    unfold holding_flag. rewrite Hh.
    assert (E : (holdings st' >? 0)%Z = true) by (apply Z.gtb_lt; lia).
    rewrite E. simpl. repeat split; try lia.
    apply Forall_app. split; [exact Hall | repeat constructor; now right].
  - rewrite Hp. unfold last_position. rewrite last_last.
    unfold holding_flag. rewrite Hh'.
    assert (E : (holdings st >? 0)%Z = true) by (apply Z.gtb_lt; lia).
    rewrite E. simpl. repeat split; try lia.
    apply Forall_app. split; [exact Hall | repeat constructor; now left].
  - rewrite Hh. split; [exact H0|]. split; [lia|].
    destruct Hp as [-> | ->]; [now split|].
    unfold last_position at 1. rewrite last_last. split; [exact Hlast|].
    apply Forall_app. split; [exact Hall|]. constructor; [|constructor].
    rewrite Hlast. apply holding_flag_cases.
Qed.

Lemma initial_ledger_flags cap : ledger_flags (initial_ledger cap).
Proof.
  unfold ledger_flags. simpl. repeat split; try lia. constructor.
Qed.

Lemma ledger_after_flags data cap fee t st :
  ledger_after data cap fee t = Ok st -> ledger_flags st.
Proof.
  unfold ledger_after.
  apply (backtest_loop_invariant ledger_flags fee (firstn (S t) data)).
  - intros s r s' _. apply step_ledger_flags.
  - apply initial_ledger_flags.
Qed.

Lemma backtest_loop_extends fee st data st' :
  backtest_loop fee st data = Ok st' ->
  exists tr ps,
    trades st' = trades st ++ tr /\ length tr = length data /\
    positions st' = positions st ++ ps /\ (length ps <= length data)%nat.
Proof.
  revert st. induction data as [|r data IH]; intros st H; simpl in H.
  - injection H as <-. exists [], []. rewrite !app_nil_r. simpl. auto.
  - destruct (step fee st r) as [st1|e] eqn:Es; simpl in H; [|discriminate].
    destruct (IH _ H) as [tr [ps [Htr [Hltr [Hps Hlps]]]]].
    destruct (step_cases _ _ _ _ Es) as [t1 [Ht1 Hc]].
    assert (Hp1 : exists p1, positions st1 = positions st ++ p1 /\ (length p1 <= 1)%nat).
    { destruct Hc as [[_ [_ [_ [_ Hp]]]] | [[_ [_ [_ [_ Hp]]]] | [_ [_ [_ [_ [Hp | Hp]]]]]]];
        try (eexists; split; [exact Hp | simpl; lia]).
      exists []. rewrite app_nil_r. split; [exact Hp | simpl; lia]. }
    destruct Hp1 as [p1 [Hp1 Hl1]].
    exists (t1 :: tr), (p1 ++ ps).
    rewrite Htr, Ht1, Hps, Hp1, <- !app_assoc, length_app. simpl.
    repeat split; lia.
Qed.

(** The ledger after row t is one step from the ledger before it. *)
Lemma ledger_after_step data cap fee t r :
  nth_error data t = Some r ->
  ledger_after data cap fee t = (st <- ledger_before data cap fee t ;; step fee st r).
Proof.
  intro Hr. unfold ledger_after, ledger_before.
  rewrite (firstn_S_nth_error _ _ _ Hr), backtest_loop_app.
  destruct (backtest_loop fee (initial_ledger cap) (firstn t data)) as [st|e];
    simpl; [|reflexivity].
  now destruct (step fee st r).
Qed.

(** The ledgers around row t of a completed loop, and what the final ledger
    holds beyond them. *)
Lemma ledgers_around data cap fee t r fin :
  backtest_loop fee (initial_ledger cap) data = Ok fin ->
  nth_error data t = Some r ->
  exists st st',
    ledger_before data cap fee t = Ok st /\
    step fee st r = Ok st' /\
    ledger_after data cap fee t = Ok st' /\
    length (trades st) = t /\
    (length (positions st) <= t)%nat /\
    exists tr ps,
      trades fin = trades st' ++ tr /\
      positions fin = positions st' ++ ps /\
      (length ps <= length data - S t)%nat.
Proof.
  intros Hfin Hr.
  assert (Ht : (t < length data)%nat) by (apply nth_error_Some; congruence).
  destruct (backtest_loop_prefix _ _ _ _ (S t) Hfin) as [st' [Hst' Hrest]].
  pose proof Hst' as Hafter.
  change (ledger_after data cap fee t = Ok st') in Hafter.
  rewrite (ledger_after_step _ _ _ _ _ Hr) in Hafter.
  destruct (ledger_before data cap fee t) as [st|e] eqn:Eb; simpl in Hafter;
    [|discriminate].
  exists st, st'. split; [reflexivity|]. split; [exact Hafter|].
  split; [exact Hst'|].
  destruct (backtest_loop_extends _ _ _ _ Eb) as [tr0 [ps0 [Htr0 [Hl0 [Hps0 Hlp0]]]]].
  simpl in Htr0, Hps0. rewrite length_firstn in Hl0, Hlp0.
  split; [rewrite Htr0; lia|]. split; [rewrite Hps0; lia|].
  destruct (backtest_loop_extends _ _ _ _ Hrest) as [tr [ps [Htr [_ [Hps Hlps]]]]].
  rewrite length_skipn in Hlps. now exists tr, ps.
Qed.

(** Every row records a marker in {-1, 0, 1}.  A 1 is recorded only on a Buy
    signal met while flat and leaves shares in the ledger; a -1 only on a Sell
    signal met while holding and leaves none; a 0 leaves shares, cash and fees
    as they were. *)
Theorem trade_marker_semantics
        (data : list row) (initial_capital fee : Q) (fin : ledger) (t : nat) (r : row) :
  backtest_loop fee (initial_ledger initial_capital) data = Ok fin ->
  nth_error data t = Some r ->
  exists st st' tr,
    ledger_before data initial_capital fee t = Ok st /\
    ledger_after data initial_capital fee t = Ok st' /\
    nth_error (trades fin) t = Some tr /\
    ((tr = 1%Z /\ Signal r = 1%Z /\ holdings st = 0%Z /\ (0 < holdings st')%Z) \/
     (tr = (-1)%Z /\ Signal r = (-1)%Z /\ (0 < holdings st)%Z /\ holdings st' = 0%Z) \/
     (tr = 0%Z /\ holdings st' = holdings st /\ cash st' = cash st /\
      total_fees st' = total_fees st)).
Proof.
  intros Hfin Hr.
  destruct (ledgers_around _ _ _ _ _ _ Hfin Hr)
    as [st [st' [Hb [Hs [Ha [Hlt [_ [tr' [ps [Htr _]]]]]]]]]].
  destruct (step_cases _ _ _ _ Hs) as [tr [Ht1 Hc]].
  exists st, st', tr. split; [exact Hb|]. split; [exact Ha|]. split.
  - rewrite Htr, Ht1, <- app_assoc, nth_error_app2 by lia.
    replace (t - length (trades st))%nat with 0%nat by lia. reflexivity.
  - destruct Hc as [[H1 [H2 [H3 [H4 _]]]] | [[H1 [H2 [H3 [H4 _]]]] |
                    [H1 [H2 [H3 [H4 _]]]]]]; auto 10.
Qed.

(** The number of shares held is never negative. *)
Theorem holdings_never_negative
        (data : list row) (initial_capital fee : Q) (t : nat) (st : ledger) :
  ledger_after data initial_capital fee t = Ok st -> (0 <= holdings st)%Z.
Proof.
  intro H. now destruct (ledger_after_flags _ _ _ _ _ H).
Qed.

Lemma nth_error_last {A} (xs : list A) d :
  xs <> [] -> nth_error xs (length xs - 1) = Some (last xs d).
Proof.
  intro H. destruct (exists_last H) as [ys [y ->]].
  rewrite last_last, length_app, nth_error_app2 by (simpl; lia).
  simpl. replace (length ys + 1 - 1 - length ys)%nat with 0%nat by lia. reflexivity.
Qed.

Lemma firstn_app_exact {A} (xs ys : list A) : firstn (length xs) (xs ++ ys) = xs.
Proof.
  rewrite firstn_app, firstn_all, Nat.sub_diag. simpl. apply app_nil_r.
Qed.

(** On a returned frame the [Positions] cell of row t is 1 when shares are held
    after row t and 0 otherwise, and it is the sum of the [Trades] cells of
    rows 0 to t. *)
Theorem positions_follow_holdings
        (data : list row) (initial_capital fee : Q) (frame : backtest_frame)
        (t : nat) (r : row) :
  backtest_strategy data initial_capital fee = Ok frame ->
  nth_error data t = Some r ->
  exists st,
    ledger_after data initial_capital fee t = Ok st /\
    nth_error (Positions frame) t = Some (holding_flag (holdings st)) /\
    nth_error (Positions frame) t =
      Some (fold_right Z.add 0%Z (firstn (S t) (Trades frame))).
Proof.
  intros Hf Hr.
  destruct (backtest_strategy_inv _ _ _ _ Hf) as [fin [Hfin [-> Hlen]]].
  cbn [Positions Trades].
  assert (Ht : (t < length data)%nat) by (apply nth_error_Some; congruence).
  destruct (ledgers_around _ _ _ _ _ _ Hfin Hr)
    as [st [st' [Hb [Hs [Ha [Hlt [Hlp [tr [ps [Htr [Hps Hlps]]]]]]]]]]].
  destruct (ledger_after_flags _ _ _ _ _ Ha) as [_ [Hsum [Hlast _]]].
  destruct (step_cases _ _ _ _ Hs) as [t1 [Ht1 Hc]].
  assert (Hp1 : (length (positions st') <= S (length (positions st)))%nat).
  { destruct Hc as [[_ [_ [_ [_ Hp]]]] | [[_ [_ [_ [_ Hp]]]] | [_ [_ [_ [_ [Hp | Hp]]]]]]];
      rewrite Hp, ?length_app; simpl; lia. }
  assert (Hl : length (positions st') = S t).
  { rewrite Hps, length_app in Hlen. lia. }
  exists st'. split; [exact Ha|].
  assert (Hpos : nth_error (positions fin) t = Some (holding_flag (holdings st'))).
  { rewrite Hps, nth_error_app1 by lia.
    rewrite <- Hlast. unfold last_position.
    replace t with (length (positions st') - 1)%nat by lia.
    apply nth_error_last. intro E. rewrite E in Hl. discriminate. }
  split; [exact Hpos|]. rewrite Hpos, <- Hsum. do 2 f_equal.
  rewrite Htr. replace (S t) with (length (trades st')).
  - now rewrite firstn_app_exact.
  - rewrite Ht1, length_app. simpl. lia.
Qed.



Lemma last_all_zero (xs : list Z) : Forall (eq 0%Z) xs -> last xs 0%Z = 0%Z.
Proof.
  induction 1 as [|x xs Hx Hxs IH]; [reflexivity|].
  destruct xs; [now symmetry | exact IH].
Qed.

Lemma backtest_loop_no_buy fee data :
  Forall (fun r => Signal r <> 1%Z) data ->
  forall st,
    holdings st = 0%Z ->
    Forall (eq 0%Z) (positions st) -> Forall (eq 0%Z) (trades st) ->
    exists fin,
      backtest_loop fee st data = Ok fin /\
      cash fin = cash st /\ holdings fin = 0%Z /\ total_fees fin = total_fees st /\
      Forall (eq 0%Z) (positions fin) /\
      length (positions fin) = (length (positions st) + length data)%nat /\
      Forall (eq 0%Z) (trades fin) /\
      exists new, portfolio_values fin = portfolio_values st ++ new /\
                  Forall (fun v => v == cash st) new.
Proof.
  induction 1 as [|r data Hr _ IH]; intros st Hh Hp Ht.
  - exists st. simpl. repeat split; trivial; try lia.
    exists []. now rewrite app_nil_r.
  - cbn [backtest_loop]. unfold step, execute_signal.
    assert (E1 : (Signal r =? 1)%Z = false) by now apply Z.eqb_neq.
    assert (E2 : (holdings st >? 0)%Z = false) by (rewrite Hh; reflexivity).
    rewrite E1, E2, andb_false_r. cbn [andb bind fst snd].
    match goal with
    | |- context [backtest_loop fee ?s data] => destruct (IH s) as
          [fin [Hfin [Hc [Hh' [Hf [Hp' [Hl [Ht' [new [Hnew Hall]]]]]]]]]]
    end; simpl; trivial.
    { apply Forall_app. split; [exact Hp|]. constructor; [|constructor].
      symmetry. now apply last_all_zero. }
    { apply Forall_app. split; [exact Ht | now repeat constructor]. }
    exists fin. simpl in *. rewrite length_app in Hl. simpl in Hl.
    repeat split; trivial; try lia.
    eexists. rewrite Hnew, <- app_assoc. split; [reflexivity|].
    constructor; [|exact Hall]. rewrite Hh. change (inject_Z 0) with 0. ring.
Qed.

(** Without a Buy signal nothing is ever traded, whatever the prices and the
    other signals: the simulator returns, every trade marker and position is
    0, the portfolio value stays at the initial capital and no fee is paid. *)
Theorem no_buy_signal_no_trade (data : list row) (initial_capital fee : Q) :
  Forall (fun r => Signal r <> 1%Z) data ->
  exists frame,
    backtest_strategy data initial_capital fee = Ok frame /\
    Forall (eq 0%Z) (Trades frame) /\
    Forall (eq 0%Z) (Positions frame) /\
    Forall (fun v => v == initial_capital) (PortfolioValue frame) /\
    TotalFees frame = 0.
Proof.
  intro Hd.
  destruct (backtest_loop_no_buy fee data Hd (initial_ledger initial_capital))
    as [fin [Hfin [Hc [Hh [Hf [Hp [Hl [Ht [new [Hnew Hall]]]]]]]]]];
    try (simpl; constructor); trivial.
  destruct (backtest_loop_records _ _ _ _ Hfin) as [[new' [Hnew' Hlen]] [Htr Hdr]].
  simpl in *. rewrite <- Hnew' in Hlen.
  unfold backtest_strategy. rewrite Hfin. cbn [bind].
  rewrite !set_column_ok by assumption. cbn [bind].
  eexists. split; [reflexivity|]. simpl. rewrite Hnew. auto.
Qed.

(** Daily returns against portfolio values. *)






(** * Further properties of the indicator and the signals *)

(** The indicator cell over a positive average loss. *)
Lemma rsi_cell_positive_loss (g l : Q) :
  0 <= g -> 0 < l ->
  exists q, rsi_cell g l = Fin q /\ q == 100 * g / (g + l) /\ 0 <= q /\ q < 100.
Proof.
  intros Hg Hl.
  assert (E1 : Qeq_bool l 0 = false) by (apply Qeq_bool_false_iff; lra).
  assert (Hx : 0 <= g / l) by now apply Qdiv_nonneg.
  assert (E2 : Qeq_bool (1 + g / l) 0 = false) by (apply Qeq_bool_false_iff; lra).
  assert (Hd1 : fdiv (Fin g) (Fin l) = Fin (g / l)) by (unfold fdiv; now rewrite E1).
  assert (Hd2 : fdiv (Fin 100) (Fin (1 + g / l)) = Fin (100 / (1 + g / l)))
    by (unfold fdiv; now rewrite E2).
  unfold rsi_cell, rsi_formula. rewrite Hd1. cbn [fadd]. rewrite Hd2.
  cbn [fsub fneg fadd isnan].
  eexists. split; [reflexivity|].
  assert (Hf : 100 + - (100 / (1 + g / l)) == 100 * g / (g + l)).
  { field. split; lra. }
  split; [exact Hf|]. rewrite Hf. split.
  - apply Qdiv_nonneg; lra.
  - apply Qlt_shift_div_r; lra.
Qed.

Lemma rsi_cell_in_range g l : nonneg_fin g -> nonneg_fin l -> in_0_100 (rsi_cell g l).
Proof.
  intros Hg Hl.
  destruct (nonneg_fin_cases l Hl) as [Hlz | Hlp].
  - destruct (nonneg_fin_cases g Hg) as [Hgz | Hgp].
    + rewrite rsi_cell_zero_zero by assumption. simpl. lra.
    + pose proof (rsi_cell_pos_zero g l Hgp Hg Hlz) as H.
      destruct (rsi_cell g l); simpl in *; try tauto. lra.
  - destruct g as [g| | |], l as [l| | |]; simpl in Hg, Hl, Hlp; try tauto;
      try discriminate.
    apply Qlt_bool_iff in Hlp.
    destruct (rsi_cell_positive_loss g l Hg Hlp) as [q [-> [_ [H0 H1]]]].
    simpl. lra.
Qed.

(** Every cell of the [RSI] column is a finite number between 0 and 100, and
    the column has one cell per row. *)
Theorem rsi_in_range (close : list Q) (period : nat) (rsi : list fval) :
  calculate_rsi close period = Ok rsi ->
  length rsi = length close /\ Forall in_0_100 rsi.
Proof.
  intro H. split; [now apply (calculate_rsi_length close period)|].
  assert (Hp : (1 <= period)%nat).
  { unfold calculate_rsi in H. destruct (Nat.ltb_spec period 1); [discriminate | lia]. }
  rewrite (calculate_rsi_ok close period Hp) in H. injection H as <-.
  apply Forall_map2 with (P := nonneg_fin) (R := nonneg_fin).
  - apply rsi_cell_in_range.
  - apply rolling_mean_nonneg; [exact Hp | apply rsi_gain_nonneg].
  - apply rolling_mean_nonneg; [exact Hp | apply rsi_loss_nonneg].
Qed.

(** The first row has no price change behind it: its indicator is 50 whatever
    the prices and the period. *)
Theorem rsi_first_row_neutral (c : Q) (rest : list Q) (period : nat) :
  (1 <= period)%nat ->
  exists rsi, calculate_rsi (c :: rest) period = Ok (Fin 50 :: rsi).
Proof.
  intro Hp. rewrite calculate_rsi_ok by exact Hp.
  assert (Hw : forall (x : fval) xs, window_at period 0 (x :: xs) = [x]).
  { intros x xs. unfold window_at. replace (1 - period)%nat with 0%nat by lia.
    reflexivity. }
  unfold rsi_avg_gain, rsi_avg_loss, rolling_mean.
  rewrite rsi_gain_length, rsi_loss_length.
  unfold rsi_gain, rsi_loss, rsi_delta, diff, shift, fillna, where_, map2.
  cbn [map length firstn combine seq fst snd fsub fneg fadd fgt flt isnan].
  rewrite !Hw. eexists. reflexivity.
Qed.

(** Prefixes of columns. *)

Lemma map2_firstn {A B C} (f : A -> B -> C) k xs ys :
  map2 f (firstn k xs) (firstn k ys) = firstn k (map2 f xs ys).
Proof.
  unfold map2. now rewrite firstn_map, combine_firstn.
Qed.

Lemma shift_firstn k xs : shift (firstn k xs) = firstn k (shift xs).
Proof.
  apply nth_error_ext. intro t. unfold shift.
  rewrite !nth_error_firstn, length_firstn.
  destruct (Nat.ltb_spec t k) as [Hk | Hk].
  - destruct (Nat.ltb_spec t (length xs)) as [Hl | Hl].
    + assert (E : (t <? Nat.min k (length xs))%nat = true) by (apply Nat.ltb_lt; lia).
      rewrite E. destruct t as [|t]; [reflexivity|]. simpl.
      rewrite nth_error_firstn.
      assert (E' : (t <? k)%nat = true) by (apply Nat.ltb_lt; lia).
      now rewrite E'.
    + assert (E : (t <? Nat.min k (length xs))%nat = false) by (apply Nat.ltb_ge; lia).
      now rewrite E.
  - assert (E : (t <? Nat.min k (length xs))%nat = false) by (apply Nat.ltb_ge; lia).
    now rewrite E.
Qed.

Lemma rolling_mean_firstn w m k xs :
  rolling_mean w m (firstn k xs) = firstn k (rolling_mean w m xs).
Proof.
  apply nth_error_ext. intro t. unfold rolling_mean.
  rewrite nth_error_firstn, !nth_error_map, !nth_error_seq, length_firstn.
  destruct (Nat.ltb_spec t k) as [Hk | Hk].
  - destruct (Nat.ltb_spec t (length xs)) as [Hl | Hl].
    + assert (E : (t <? Nat.min k (length xs))%nat = true) by (apply Nat.ltb_lt; lia).
      rewrite E. simpl. do 2 f_equal. unfold window_at.
      rewrite firstn_firstn. now replace (Nat.min (S t) k) with (S t) by lia.
    + assert (E : (t <? Nat.min k (length xs))%nat = false) by (apply Nat.ltb_ge; lia).
      now rewrite E.
  - assert (E : (t <? Nat.min k (length xs))%nat = false) by (apply Nat.ltb_ge; lia).
    now rewrite E.
Qed.

Lemma rsi_delta_firstn k close : rsi_delta (firstn k close) = firstn k (rsi_delta close).
Proof.
  unfold rsi_delta, diff. now rewrite <- firstn_map, shift_firstn, map2_firstn.
Qed.

Lemma rsi_gain_firstn k close : rsi_gain (firstn k close) = firstn k (rsi_gain close).
Proof.
  unfold rsi_gain, fillna. now rewrite !where_map, rsi_delta_firstn, !firstn_map.
Qed.

Lemma rsi_loss_firstn k close : rsi_loss (firstn k close) = firstn k (rsi_loss close).
Proof.
  unfold rsi_loss, fillna. now rewrite !where_map, rsi_delta_firstn, !firstn_map.
Qed.

(** The indicator looks at no later row: on the first k rows of a series it is
    the first k cells of the indicator of the whole series. *)
Theorem rsi_no_lookahead (close : list Q) (period k : nat) (rsi : list fval) :
  calculate_rsi close period = Ok rsi ->
  calculate_rsi (firstn k close) period = Ok (firstn k rsi).
Proof.
  unfold calculate_rsi. destruct (period <? 1)%nat; [discriminate|].
  intro H. injection H as <-. f_equal.
  unfold rsi_avg_gain, rsi_avg_loss, fillna.
  now rewrite rsi_gain_firstn, rsi_loss_firstn, !rolling_mean_firstn, map2_firstn,
    !firstn_map.
Qed.

(** The signals look at no later row either. *)
Theorem signals_no_lookahead (rsi : list fval) (ob os : fval) (k : nat) :
  generate_signals (firstn k rsi) ob os = firstn k (generate_signals rsi ob os).
Proof.
  unfold generate_signals, loc_assign, buy_signals, sell_signals.
  now rewrite shift_firstn, !map2_firstn, <- firstn_map, !map2_firstn.
Qed.

(** The two crossings exclude each other whatever the thresholds: a Buy needs
    oversold < current and previous <= oversold, a Sell needs
    current < overbought and overbought <= previous. *)
Lemma crossings_exclusive (cur prev ob os : fval) :
  fgt cur os && fle prev os = true -> flt cur ob && fge prev ob = true -> False.
Proof.
  unfold fgt, fge. intros H1 H2.
  apply andb_true_iff in H1. destruct H1 as [H1 H1'].
  apply andb_true_iff in H2. destruct H2 as [H2 H2'].
  destruct cur as [c| | |], prev as [p| | |], ob as [b| | |], os as [s| | |];
    simpl in *; try discriminate.
  apply Qlt_bool_iff in H1, H2. apply Qle_bool_iff in H1', H2'. lra.
Qed.

(** [generate_signals] takes any thresholds, ordered or not.  Every cell it
    writes is -1, 0 or 1; a row after the first is a Buy exactly when the
    indicator crosses up through the oversold threshold and a Sell exactly
    when it crosses down through the overbought one; the two crossings never
    fall on one row, so the order of the two assignments does not matter. *)
Theorem crossings_need_no_threshold_order (rsi : list fval) (ob os : fval) :
  Forall (fun s => s = (-1)%Z \/ s = 0%Z \/ s = 1%Z) (generate_signals rsi ob os) /\
  forall t cur prev,
    nth_error rsi (S t) = Some cur ->
    nth_error rsi t = Some prev ->
    exists s,
      nth_error (generate_signals rsi ob os) (S t) = Some s /\
      (s = 1%Z <-> fgt cur os && fle prev os = true) /\
      (s = (-1)%Z <-> flt cur ob && fge prev ob = true) /\
      ~ (fgt cur os && fle prev os = true /\ flt cur ob && fge prev ob = true).
Proof.
  split.
  - apply Forall_forall. intros s Hs. apply In_nth_error in Hs. destruct Hs as [t Ht].
    rewrite nth_error_generate_signals in Ht.
    destruct (nth_error rsi t) as [cur|]; [|discriminate].
    destruct (nth_error (shift rsi) t) as [prev|]; [|discriminate].
    injection Ht as <-. unfold signal_at.
    destruct (flt cur ob && fge prev ob); [now left|].
    destruct (fgt cur os && fle prev os); auto.
  - intros t cur prev Hcur Hprev.
    assert (Hlen : (S t < length rsi)%nat) by (apply nth_error_Some; congruence).
    exists (signal_at cur prev ob os).
    rewrite nth_error_generate_signals, Hcur, nth_error_shift_S, Hprev by exact Hlen.
    split; [reflexivity|].
    pose proof (crossings_exclusive cur prev ob os) as Hex.
    unfold signal_at.
    destruct (flt cur ob && fge prev ob), (fgt cur os && fle prev os);
      repeat split; try discriminate; try tauto; intros []; discriminate.
Qed.

(** * Further properties of the metrics *)

Lemma expanding_max_from_below acc xs :
  acc = NaN \/ positive_cell acc ->
  Forall positive_cell xs ->
  Forall2 below_max xs (expanding_max_from acc xs).
Proof.
  intros Hacc Hxs. revert acc Hacc.
  induction Hxs as [|x xs Hx _ IH]; intros acc Hacc; simpl; [constructor|].
  assert (Hm : below_max x (fmax acc x)).
  { unfold fmax. destruct x as [q| | |]; simpl in Hx; try tauto. simpl.
    destruct Hacc as [-> | Hacc]; [simpl; lra|].
    destruct acc as [a| | |]; simpl in Hacc; try tauto. simpl.
    destruct (Qlt_bool a q) eqn:E; simpl.
    - lra.
    - apply Qlt_bool_false_iff in E. lra. }
  constructor; [exact Hm|]. apply IH. right.
  destruct x as [q| | |]; simpl in Hm; try tauto.
  destruct (fmax acc (Fin q)) as [b| | |]; simpl in *; try tauto. lra.
Qed.

Lemma Forall2_map2 {A B C} (R : A -> B -> Prop) (S : C -> Prop) (f : A -> B -> C) xs ys :
  (forall x y, R x y -> S (f x y)) -> Forall2 R xs ys -> Forall S (map2 f xs ys).
Proof.
  intros Hf H. unfold map2. induction H; simpl; constructor; auto.
Qed.

Lemma Forall2_map2_l {A B C} (R : A -> B -> Prop) (S : C -> B -> Prop)
      (f : A -> B -> C) xs ys :
  (forall x y, R x y -> S (f x y) y) -> Forall2 R xs ys -> Forall2 S (map2 f xs ys) ys.
Proof.
  intros Hf H. unfold map2. induction H; simpl; constructor; auto.
Qed.

Lemma drawdown_series_cells xs :
  Forall positive_cell xs -> Forall drawdown_cell (drawdown_series xs).
Proof.
  intro H. unfold drawdown_series, expanding_max.
  pose proof (expanding_max_from_below NaN xs (or_introl eq_refl) H) as Hb.
  apply Forall2_map2 with (R := fun d m => match d, m with
                                           | Fin a, Fin b => 0 < b /\ - b < a /\ a <= 0
                                           | _, _ => False
                                           end).
  - intros [d| | |] [m| | |]; simpl; try tauto. intros [Hm [H1 H2]].
    assert (E : Qeq_bool m 0 = false) by (apply Qeq_bool_false_iff; lra).
    rewrite E. simpl. split.
    + apply Qlt_shift_div_l; lra.
    + apply Qle_shift_div_r; lra.
  - apply Forall2_map2_l with (R := below_max); [|exact Hb].
    intros [v| | |] [m| | |]; simpl; try tauto. intros [H1 H2]. lra.
Qed.

Lemma fold_fmin_drawdown xs acc :
  Forall drawdown_cell xs -> (acc = NaN /\ xs <> []) \/ drawdown_cell acc ->
  drawdown_cell (fold_left fmin xs acc).
Proof.
  intro H. revert acc. induction H as [|x xs Hx _ IH]; intros acc Hacc; simpl.
  - destruct Hacc as [[_ Hne] | Hz]; [congruence | exact Hz].
  - apply IH. right. unfold fmin.
    destruct x as [q| | |]; simpl in Hx; try tauto. simpl.
    destruct Hacc as [[-> _] | Hz]; [exact Hx|].
    destruct acc as [a| | |]; simpl in Hz; try tauto. simpl.
    now destruct (Qlt_bool q a).
Qed.

(** On a frame whose portfolio values are all positive the maximum drawdown is
    a finite number in (-1, 0]. *)
Theorem max_drawdown_range (sqrt : Q -> Q) (data : backtest_frame) (initial_capital : Q) :
  PortfolioValue data <> [] -> Rows data <> [] ->
  Forall (fun v => 0 < v) (PortfolioValue data) ->
  exists m q,
    calculate_performance_metrics sqrt data initial_capital = Ok m /\
    max_drawdown m = Fin q /\ -1 < q /\ q <= 0.
Proof.
  intros Hpv Hrows Hpos.
  destruct (calculate_performance_metrics_strategy sqrt data initial_capital Hpv Hrows)
    as [m [final [Hm [_ [_ [_ Hdd]]]]]].
  assert (Hc : drawdown_cell (max_drawdown m)).
  { rewrite Hdd. unfold series_min. apply fold_fmin_drawdown.
    - apply drawdown_series_cells, Forall_map.
      eapply Forall_impl; [|exact Hpos]. now intros v Hv.
    - left. split; [reflexivity|]. intro E.
      apply (f_equal (@length fval)) in E.
      rewrite drawdown_series_length, length_map in E.
      destruct (PortfolioValue data); [congruence | discriminate]. }
  destruct (max_drawdown m) as [q| | |] eqn:Eq; simpl in Hc; try tauto.
  exists m, q. split; [exact Hm|]. split; [exact Eq | exact Hc].
Qed.

Lemma dropna_map_Fin (xs : list Q) : dropna (map Fin xs) = map Fin xs.
Proof.
  unfold dropna. induction xs as [|x xs IH]; simpl; [reflexivity | now rewrite IH].
Qed.

Lemma sharpe_ratio_nan_volatility sqrt returns :
  annualized_volatility sqrt returns = NaN -> sharpe_ratio sqrt returns = NaN.
Proof.
  unfold sharpe_ratio. intros ->. simpl.
  now destruct (fsub (fmul (series_mean returns) 252) risk_free_rate).
Qed.

(** With at most one daily return the sample standard deviation does not
    exist: the volatility is nan, and so is the Sharpe ratio, which the test
    [volatility != 0] lets through. *)
Theorem single_row_volatility_nan
        (sqrt : Q -> Q) (data : backtest_frame) (initial_capital : Q) :
  PortfolioValue data <> [] -> Rows data <> [] ->
  (length (StrategyDailyReturn data) <= 1)%nat ->
  exists m,
    calculate_performance_metrics sqrt data initial_capital = Ok m /\
    volatility m = NaN /\ sharpe m = NaN.
Proof.
  intros Hpv Hrows Hlen.
  destruct (calculate_performance_metrics_ok sqrt data initial_capital Hpv Hrows)
    as [m [Hm [Hv [Hs _]]]].
  assert (Hnan : annualized_volatility sqrt (map Fin (StrategyDailyReturn data)) = NaN).
  { unfold annualized_volatility, series_std. rewrite dropna_map_Fin, length_map.
    apply Nat.leb_le in Hlen. now rewrite Hlen. }
  exists m. split; [exact Hm|]. split; [now rewrite Hv|].
  rewrite Hs. now apply sharpe_ratio_nan_volatility.
Qed.




(** * display_metrics and plot_results *)

Ltac solve_in :=
  vm_compute; solve [repeat (first [reflexivity | left; reflexivity | right])].

(** Every label of the table turns into a key of the metrics dictionary, for
    the strategy column and, with the prefix [bh_], for the buy-and-hold
    column, so no cell falls back to the empty default; every entry of the
    dictionary is reached from some label; and every value cell of the grid
    shows an entry of the dictionary. *)
Theorem display_metrics_resolves_every_label (m : metrics) :
  (forall metric,
      In metric metrics_labels ->
      In (metric_key metric) (map fst (metrics_dict m)) /\
      In ("bh_" ++ metric_key metric)%string (map fst (metrics_dict m))) /\
  (forall key,
      In key (map fst (metrics_dict m)) ->
      exists metric,
        In metric metrics_labels /\
        (key = metric_key metric \/ key = ("bh_" ++ metric_key metric)%string)) /\
  Forall (fun l =>
            (1 <= grid_row l)%nat -> (1 <= grid_column l)%nat ->
            exists key, In (key, label_text l) (metrics_dict m))
         (display_metrics (metrics_dict m)).
Proof.
  split; [|split].
  - intros metric H. simpl in H.
    repeat (destruct H as [<- | H]; [split; solve_in|]). contradiction.
  - intros key H. simpl in H.
    repeat (destruct H as [<- | H];
            [first [ exists "Portfolio Value"%string; split; [solve_in | solve_in]
                   | exists "Total Return"%string; split; [solve_in | solve_in]
                   | exists "Max. Drawdown"%string; split; [solve_in | solve_in]
                   | exists "Volatility"%string; split; [solve_in | solve_in]
                   | exists "Sharpe Ratio"%string; split; [solve_in | solve_in]
                   | exists "Fees Paid"%string; split; [solve_in | solve_in]
                   | exists "Number of Trades"%string; split; [solve_in | solve_in] ]|]).
    contradiction.
  - vm_compute display_metrics.
    repeat (constructor;
            [cbn [grid_row grid_column label_text]; intros Hr Hc;
             first [ exfalso; lia
                   | eexists;
                     solve [repeat (first [left; reflexivity | right])] ]|]).
    constructor.
Qed.

(** Markers of [plot_results]. *)

Lemma recorded_trade_signal data cap fee fin t r tr :
  backtest_loop fee (initial_ledger cap) data = Ok fin ->
  nth_error data t = Some r ->
  nth_error (trades fin) t = Some tr ->
  (tr = 1%Z -> Signal r = 1%Z) /\
  (tr = (-1)%Z -> Signal r = (-1)%Z) /\
  (tr = (-1)%Z \/ tr = 0%Z \/ tr = 1%Z).
Proof.
  intros Hfin Hr Htr.
  destruct (ledgers_around _ _ _ _ _ _ Hfin Hr)
    as [st [st' [Hb [Hs [Ha [Hlt [_ [tr' [ps [Htr' _]]]]]]]]]].
  destruct (step_cases _ _ _ _ Hs) as [t1 [Ht1 Hc]].
  rewrite Htr', Ht1, <- app_assoc, nth_error_app2 in Htr by lia.
  replace (t - length (trades st))%nat with 0%nat in Htr by lia.
  simpl in Htr. injection Htr as <-.
  destruct Hc as [[-> [H2 _]] | [[-> [H2 _]] | [-> _]]];
    repeat split; auto; discriminate.
Qed.

Lemma In_enumerate {A} (xs : list A) s i x :
  In (i, x) (enumerate xs s) -> (s <= i)%nat /\ nth_error xs (i - s) = Some x.
Proof.
  unfold enumerate. revert s. induction xs as [|y xs IH]; intros s H; simpl in H;
    [contradiction|].
  destruct H as [H | H].
  - injection H as <- <-. rewrite Nat.sub_diag. split; [lia | reflexivity].
  - destruct (IH _ H) as [Hle Hn]. split; [lia|].
    replace (i - s)%nat with (S (i - S s)) by lia. exact Hn.
Qed.

Lemma nth_error_combine_inv {A B} (xs : list A) (ys : list B) t x y :
  nth_error (combine xs ys) t = Some (x, y) ->
  nth_error xs t = Some x /\ nth_error ys t = Some y.
Proof.
  revert ys t. induction xs as [|a xs IH]; intros [|b ys] [|t] H; simpl in H;
    try discriminate.
  - injection H as <- <-. now split.
  - simpl. now apply IH.
Qed.

(** A buy marker is drawn only on a row that carries a Buy signal, at the
    close of that row; a sell marker only on a row that carries a Sell
    signal. *)
Theorem markers_on_signal_rows
        (data : list row) (initial_capital fee : Q) (frame : backtest_frame)
        (i : nat) (c : Q) :
  backtest_strategy data initial_capital fee = Ok frame ->
  (In (i, c) (plot_buy_markers frame) ->
   exists r, nth_error data i = Some r /\ Close r = c /\ Signal r = 1%Z) /\
  (In (i, c) (plot_sell_markers frame) ->
   exists r, nth_error data i = Some r /\ Close r = c /\ Signal r = (-1)%Z).
Proof.
  intro Hf.
  destruct (backtest_strategy_inv _ _ _ _ Hf) as [fin [Hfin [-> _]]].
  unfold plot_buy_markers, plot_sell_markers, plot_trades. cbn [Rows Trades].
  split; intro H; apply in_map_iff in H; destruct H as [[j [r tr]] [Heq H]];
    cbn [fst snd] in Heq; injection Heq as -> <-;
    apply filter_In in H; destruct H as [H Htr]; cbn [snd] in Htr;
    apply Z.eqb_eq in Htr; subst tr;
    apply filter_In in H; destruct H as [H _];
    apply In_enumerate in H; destruct H as [_ H]; rewrite Nat.sub_0_r in H;
    apply nth_error_combine_inv in H; destruct H as [Hr Ht];
    destruct (recorded_trade_signal _ _ _ _ _ _ _ Hfin Hr Ht) as [H1 [H2 _]];
    exists r; auto.
Qed.

Lemma trades_in_range data cap fee fin :
  backtest_loop fee (initial_ledger cap) data = Ok fin ->
  Forall (fun tr => tr = (-1)%Z \/ tr = 0%Z \/ tr = 1%Z) (trades fin).
Proof.
  apply (backtest_loop_invariant
           (fun st => Forall (fun tr => tr = (-1)%Z \/ tr = 0%Z \/ tr = 1%Z) (trades st))).
  - intros st r st' _ Hi Hs. destruct (step_cases _ _ _ _ Hs) as [t1 [-> Hc]].
    apply Forall_app. split; [exact Hi|]. constructor; [|constructor].
    destruct Hc as [[-> _] | [[-> _] | [-> _]]]; auto.
  - constructor.
Qed.

Lemma marker_count (l : list (nat * (row * Z))) :
  Forall (fun x => snd (snd x) = (-1)%Z \/ snd (snd x) = 0%Z \/ snd (snd x) = 1%Z) l ->
  Z.of_nat
    (length (filter (fun x => (snd (snd x) =? 1)%Z)
                    (filter (fun x => negb (snd (snd x) =? 0)%Z) l)) +
     length (filter (fun x => (snd (snd x) =? -1)%Z)
                    (filter (fun x => negb (snd (snd x) =? 0)%Z) l))) =
  fold_right Z.add 0%Z (map Z.abs (map (fun x => snd (snd x)) l)).
Proof.
  induction 1 as [|x l Hx _ IH]; [reflexivity|].
  destruct x as [i [r tr]]. cbn [map fold_right snd]. rewrite <- IH.
  cbn [snd] in Hx.
  destruct Hx as [-> | [-> | ->]]; cbn -[Z.add Z.of_nat Nat.add]; lia.
Qed.

Lemma map_snd_enumerate {A} (xs : list A) s : map snd (enumerate xs s) = xs.
Proof.
  unfold enumerate. revert s. induction xs as [|x xs IH]; intro s; simpl;
    [reflexivity | now rewrite IH].
Qed.

Lemma map_snd_combine {A B} (xs : list A) (ys : list B) :
  length xs = length ys -> map snd (combine xs ys) = ys.
Proof.
  revert ys. induction xs as [|x xs IH]; intros [|y ys] H; simpl in *;
    try discriminate; [reflexivity | f_equal; apply IH; lia].
Qed.

Lemma calculate_performance_metrics_trades sqrt data initial_capital m :
  calculate_performance_metrics sqrt data initial_capital = Ok m ->
  number_of_trades m = fold_right Z.add 0%Z (map Z.abs (Trades data)).
Proof.
  unfold calculate_performance_metrics.
  destruct (iloc_last (PortfolioValue data)); cbn [bind]; [|discriminate].
  destruct (iloc_first _); cbn [bind]; [|discriminate].
  destruct (iloc_last _); cbn [bind]; [|discriminate].
  intro H. injection H as <-. reflexivity.
Qed.

(** The markers drawn on the price chart are as many as the trades counted in
    the metrics: every executed trade gets exactly one marker. *)
Theorem markers_match_trade_count
        (sqrt : Q -> Q) (data : list row) (initial_capital fee : Q)
        (frame : backtest_frame) (m : metrics) :
  backtest_strategy data initial_capital fee = Ok frame ->
  calculate_performance_metrics sqrt frame initial_capital = Ok m ->
  Z.of_nat (length (plot_buy_markers frame) + length (plot_sell_markers frame)) =
  number_of_trades m.
Proof.
  intros Hf Hm.
  rewrite (calculate_performance_metrics_trades _ _ _ _ Hm).
  destruct (backtest_strategy_inv _ _ _ _ Hf) as [fin [Hfin [-> _]]].
  destruct (backtest_loop_records _ _ _ _ Hfin) as [_ [Htr _]].
  simpl in Htr. pose proof (trades_in_range _ _ _ _ Hfin) as Hrange.
  unfold plot_buy_markers, plot_sell_markers, plot_trades. cbn [Rows Trades].
  rewrite !length_map.
  set (l := enumerate (combine data (trades fin)) 0).
  assert (Hl : map (fun x => snd (snd x)) l = trades fin).
  { rewrite <- (map_map snd snd). unfold l.
    now rewrite map_snd_enumerate, map_snd_combine. }
  rewrite <- Hl. apply marker_count.
  rewrite <- Hl in Hrange. now rewrite Forall_map in Hrange.
Qed.

(** * The simulator and the metrics together *)

Lemma iloc_last_inv {A} (xs : list A) x :
  iloc_last xs = Ok x -> exists ys, xs = ys ++ [x].
Proof.
  unfold iloc_last. destruct (rev xs) as [|y r] eqn:E; [discriminate|].
  intro H. injection H as ->. exists (rev r).
  rewrite <- (rev_involutive xs), E. reflexivity.
Qed.


Lemma calculate_performance_metrics_inv sqrt data capital m :
  calculate_performance_metrics sqrt data capital = Ok m ->
  exists final,
    iloc_last (PortfolioValue data) = Ok final /\
    portfolio_value m = final /\
    total_return m = fsub (fdiv final capital) 1 /\
    fees_paid m = TotalFees data.
Proof.
  unfold calculate_performance_metrics.
  destruct (iloc_last (PortfolioValue data)) as [final|]; cbn [bind]; [|discriminate].
  destruct (iloc_first _); cbn [bind]; [|discriminate].
  destruct (iloc_last _); cbn [bind]; [|discriminate].
  intro H. injection H as <-. exists final. repeat split.
Qed.

(** The figure shown as the portfolio value of the strategy is the cash of the
    final ledger plus its shares at the last close, and the fees shown are the
    fee total of that ledger. *)
Theorem final_figures_from_ledger
        (sqrt : Q -> Q) (data : list row) (initial_capital fee capital : Q)
        (frame : backtest_frame) (m : metrics) (rl : row) :
  backtest_strategy data initial_capital fee = Ok frame ->
  calculate_performance_metrics sqrt frame capital = Ok m ->
  iloc_last data = Ok rl ->
  exists fin,
    backtest_loop fee (initial_ledger initial_capital) data = Ok fin /\
    portfolio_value m = cash fin + inject_Z (holdings fin) * Close rl /\
    fees_paid m = total_fees fin.
Proof.
  intros Hf Hm Hl.
  destruct (backtest_strategy_inv _ _ _ _ Hf) as [fin [Hfin [-> _]]].
  exists fin. split; [exact Hfin|].
  destruct (iloc_last_inv _ _ Hl) as [ys ->].
  pose proof Hfin as Hfin'. rewrite backtest_loop_app in Hfin'.
  destruct (backtest_loop fee (initial_ledger initial_capital) ys) as [st|e];
    simpl in Hfin'; [|discriminate].
  destruct (step fee st rl) as [st1|e] eqn:Es; simpl in Hfin'; [|discriminate].
  assert (Est : st1 = fin) by congruence. subst st1.
  destruct (step_records _ _ _ _ Es) as [Hpv _].
  destruct (calculate_performance_metrics_inv _ _ _ _ Hm)
    as [final [Hlast [Hv [_ Hfees]]]].
  cbn [PortfolioValue TotalFees] in Hlast, Hfees.
  rewrite Hpv, iloc_last_snoc in Hlast. injection Hlast as <-.
  split; assumption.
Qed.




(** * Further properties of the driver *)

Lemma dict_get_not_in d key :
  ~ In key (map fst d) -> dict_get d key = Raise (KeyError key).
Proof.
  induction d as [|[k v] d IH]; simpl; [reflexivity|]. intro H.
  destruct (String.eqb_spec k key) as [-> | Hne]; [tauto|]. apply IH. tauto.
Qed.

Lemma dict_get_key d key v : dict_get d key = Ok v -> In (key, v) d.
Proof.
  induction d as [|[k w] d IH]; simpl; [discriminate|].
  destruct (String.eqb_spec k key) as [-> | Hne].
  - intro H. injection H as ->. now left.
  - intro H. right. now apply IH.
Qed.

Lemma make_rows_length close signal :
  length close = length signal -> length (make_rows close signal) = length close.
Proof. apply map2_length. Qed.

Section MoreDriverProperties.

Variable parse_float : string -> option fval.
Variable get_historical_data : string -> string -> string -> list Q.
Variable sqrt : Q -> Q.

(** A company name that is not a key of [COMPANIES] raises [KeyError], which
    the [try] block does not catch: no box is shown and nothing is fetched. *)
Theorem unknown_company_propagates (self : widgets) :
  ~ In (company_var self) (map fst COMPANIES) ->
  run_backtest parse_float get_historical_data sqrt self =
    ([], Raise (KeyError (company_var self))).
Proof.
  intro H. unfold run_backtest, read_inputs.
  now rewrite (dict_get_not_in _ _ H).
Qed.

(** An entry that is not a numeral is reported like an invalid value: the run
    shows the input error box and returns. *)
Theorem unparsable_entry_rejected (self : widgets) :
  In (company_var self) (map fst COMPANIES) ->
  parse_float (capital_entry self) = None \/
  parse_float (fee_entry self) = None \/
  parse_float (overbought_entry self) = None \/
  parse_float (oversold_entry self) = None ->
  exists msg,
    run_backtest parse_float get_historical_data sqrt self =
      ([showerror "Input Error" msg], Ok tt).
Proof.
  intros Hc Hbad. unfold run_backtest, read_inputs, py_float.
  destruct (dict_get_in _ _ Hc) as [ticker ->]. cbn [bind].
  destruct (parse_float (capital_entry self)) as [cap|] eqn:Ecap; cbn [bind];
    [|eexists; reflexivity].
  destruct (fle cap 0) eqn:E1; [eexists; reflexivity|].
  destruct (parse_float (fee_entry self)) as [fee|] eqn:Efee; cbn [bind];
    [|eexists; reflexivity].
  destruct (flt (fdiv fee 100) 0) eqn:E2; [eexists; reflexivity|].
  destruct (parse_float (overbought_entry self)) as [ob|] eqn:Eob; cbn [bind];
    [|eexists; reflexivity].
  destruct (flt 0 ob && flt ob 100) eqn:E3; cbn [negb]; [|eexists; reflexivity].
  destruct (parse_float (oversold_entry self)) as [os|] eqn:Eos; cbn [bind];
    [|eexists; reflexivity].
  exfalso. destruct Hbad as [H | [H | [H | H]]]; discriminate.
Qed.

Lemma flt_between x : flt 0 x && flt x 100 = true -> exists q, x = Fin q /\ 0 < q /\ q < 100.
Proof.
  destruct x as [q| | |]; simpl; try discriminate.
  intro H. apply andb_true_iff in H. destruct H as [H1 H2].
  apply Qlt_bool_iff in H1, H2. now exists q.
Qed.

(** What the [try] block guarantees when it lets a run through: both
    thresholds are finite with 0 < oversold < overbought < 100, the capital is
    not <= 0, the fee rate is not < 0, and the ticker is the one [COMPANIES]
    gives for the selected company. *)
Theorem accepted_inputs_are_valid (self : widgets) (cfg : config) :
  read_inputs parse_float self = Ok cfg ->
  exists ob os,
    cfg_rsi_overbought cfg = Fin ob /\ cfg_rsi_oversold cfg = Fin os /\
    0 < os /\ os < ob /\ ob < 100 /\
    fle (cfg_initial_capital cfg) 0 = false /\
    flt (cfg_fee_percentage cfg) 0 = false /\
    In (company_var self, cfg_ticker cfg) COMPANIES.
Proof.
  unfold read_inputs, py_float.
  destruct (dict_get COMPANIES (company_var self)) as [ticker|e] eqn:Et; cbn [bind];
    [|discriminate].
  destruct (parse_float (capital_entry self)) as [cap|]; cbn [bind]; [|discriminate].
  destruct (fle cap 0) eqn:E1; [discriminate|].
  destruct (parse_float (fee_entry self)) as [fee|]; cbn [bind]; [|discriminate].
  destruct (flt (fdiv fee 100) 0) eqn:E2; [discriminate|].
  destruct (parse_float (overbought_entry self)) as [ob|]; cbn [bind]; [|discriminate].
  destruct (flt 0 ob && flt ob 100) eqn:E3; cbn [negb]; [|discriminate].
  destruct (parse_float (oversold_entry self)) as [os|]; cbn [bind]; [|discriminate].
  destruct (flt 0 os && flt os 100) eqn:E4; cbn [negb]; [|discriminate].
  destruct (fge os ob) eqn:E5; [discriminate|].
  intro H. injection H as <-.
  cbn [cfg_rsi_overbought cfg_rsi_oversold cfg_initial_capital cfg_fee_percentage
       cfg_ticker].
  destruct (flt_between _ E3) as [qb [-> [Hb0 Hb1]]].
  destruct (flt_between _ E4) as [qs [-> [Hs0 Hs1]]].
  exists qb, qs. unfold fge in E5. simpl in E5. apply Qle_bool_false_iff in E5.
  pose proof (dict_get_key _ _ _ Et) as Hkey.
  repeat split; trivial.
Qed.

(** Once the inputs are accepted with a finite capital and fee and the data is
    not empty, the run can only fail inside [backtest_strategy]: if the
    simulator raises, the run raises the same exception right after calling
    it; if it returns, the metrics are computed, displayed and plotted and the
    run returns. *)
Theorem run_backtest_outcomes (self : widgets) (cfg : config) (capital fee : Q) :
  read_inputs parse_float self = Ok cfg ->
  cfg_initial_capital cfg = Fin capital ->
  cfg_fee_percentage cfg = Fin fee ->
  get_historical_data (cfg_ticker cfg) START_DATE END_DATE <> [] ->
  let data := get_historical_data (cfg_ticker cfg) START_DATE END_DATE in
  let fetch := call_get_historical_data (cfg_ticker cfg) START_DATE END_DATE in
  exists rsi,
    calculate_rsi data 14 = Ok rsi /\
    match backtest_strategy
            (make_rows data (generate_signals rsi (cfg_rsi_overbought cfg)
                                              (cfg_rsi_oversold cfg)))
            capital fee with
    | Ok frame =>
        exists m,
          calculate_performance_metrics sqrt frame capital = Ok m /\
          run_backtest parse_float get_historical_data sqrt self =
            ([fetch; call_calculate_rsi; call_generate_signals;
              call_backtest_strategy; call_calculate_performance_metrics;
              call_display_metrics m; call_plot_results], Ok tt)
    | Raise e =>
        run_backtest parse_float get_historical_data sqrt self =
          ([fetch; call_calculate_rsi; call_generate_signals;
            call_backtest_strategy], Raise e)
    end.
Proof.
  intros Hin Hcap Hfee Hne data fetch.
  assert (Hrsi : calculate_rsi data 14 = Ok _) by (apply calculate_rsi_ok; lia).
  eexists. split; [exact Hrsi|].
  set (rsi := map2 rsi_cell (rsi_avg_gain data 14) (rsi_avg_loss data 14)) in *.
  assert (Hempty : (length data =? 0)%nat = false).
  { apply Nat.eqb_neq. subst data. destruct (get_historical_data _ _ _);
      [congruence | discriminate]. }
  assert (Hrun : run_backtest parse_float get_historical_data sqrt self =
                 tbind (emit fetch) (fun _ => run_core sqrt cfg data)).
  { unfold run_backtest. rewrite Hin. fold data. fold fetch. now rewrite Hempty. }
  rewrite Hrun. unfold run_core. rewrite Hrsi, Hcap, Hfee.
  unfold tbind, emit, lift, finite_arg, finite.
  destruct (backtest_strategy _ capital fee) as [frame|e] eqn:Eb.
  all: match type of Eb with
       | backtest_strategy ?r _ _ = _ => set (rows := r) in *
       end.
  - destruct (backtest_strategy_inv _ _ _ _ Eb) as [fin [Hfin [Hframe _]]].
    destruct (backtest_loop_records _ _ _ _ Hfin) as [[new [Hnew Hlen]] _].
    assert (Hrows : length rows = length data).
    { unfold rows. apply make_rows_length.
      now rewrite generate_signals_length, (calculate_rsi_length _ _ _ Hrsi). }
    assert (Hpos : (0 < length data)%nat).
    { apply Nat.eqb_neq in Hempty. lia. }
    destruct (calculate_performance_metrics_ok sqrt frame capital) as [m [Hm _]].
    + rewrite Hframe. simpl. rewrite Hnew. simpl. intro E. rewrite E in Hlen.
      simpl in Hlen. lia.
    + rewrite Hframe. simpl. intro E. rewrite E in Hrows. simpl in Hrows. lia.
    + exists m. split; [exact Hm|]. rewrite Hm. reflexivity.
  - reflexivity.
Qed.

End MoreDriverProperties.

(** * Concrete runs of the further properties *)

(** [trade_marker_semantics] on the buy of the round trip. *)
Lemma trade_marker_semantics_witness :
  exists st st' tr,
    ledger_before round_trip 1000 (1 # 100) 0 = Ok st /\
    ledger_after round_trip 1000 (1 # 100) 0 = Ok st' /\
    nth_error (trades round_trip_ledger) 0 = Some tr /\
    ((tr = 1%Z /\ Signal (mkRow 100 1) = 1%Z /\ holdings st = 0%Z /\
      (0 < holdings st')%Z) \/
     (tr = (-1)%Z /\ Signal (mkRow 100 1) = (-1)%Z /\ (0 < holdings st)%Z /\
      holdings st' = 0%Z) \/
     (tr = 0%Z /\ holdings st' = holdings st /\ cash st' = cash st /\
      total_fees st' = total_fees st)).
Proof.
  apply (trade_marker_semantics round_trip 1000 (1 # 100) round_trip_ledger 0
                                (mkRow 100 1)).
  - vm_compute. reflexivity.
  - reflexivity.
Defined.

(** [holdings_never_negative] after the round trip. *)
Lemma holdings_never_negative_witness : (0 <= holdings round_trip_ledger)%Z.
Proof.
  apply (holdings_never_negative round_trip 1000 (1 # 100) 1 round_trip_ledger).
  vm_compute. reflexivity.
Defined.

(** [positions_follow_holdings] on the buy of the round trip. *)
Lemma positions_follow_holdings_witness :
  exists st,
    ledger_after round_trip 1000 (1 # 100) 0 = Ok st /\
    nth_error (Positions round_trip_frame) 0 = Some (holding_flag (holdings st)) /\
    nth_error (Positions round_trip_frame) 0 =
      Some (fold_right Z.add 0%Z (firstn 1 (Trades round_trip_frame))).
Proof.
  apply (positions_follow_holdings round_trip 1000 (1 # 100) round_trip_frame 0
                                   (mkRow 100 1)).
  - vm_compute. reflexivity.
  - reflexivity.
Defined.


(** [no_buy_signal_no_trade] on a Hold and a Sell. *)
Lemma no_buy_signal_no_trade_witness :
  exists frame,
    backtest_strategy sell_only 1000 (1 # 100) = Ok frame /\
    Forall (eq 0%Z) (Trades frame) /\
    Forall (eq 0%Z) (Positions frame) /\
    Forall (fun v => v == 1000) (PortfolioValue frame) /\
    TotalFees frame = 0.
Proof.
  apply (no_buy_signal_no_trade sell_only 1000 (1 # 100)).
  repeat constructor; simpl; discriminate.
Defined.


(** [rsi_in_range] on [crossing_close]. *)
Lemma rsi_in_range_witness :
  length crossing_rsi = length crossing_close /\ Forall in_0_100 crossing_rsi.
Proof.
  apply (rsi_in_range crossing_close 14 crossing_rsi).
  vm_compute. reflexivity.
Defined.

(** [rsi_first_row_neutral] on two closes. *)
Lemma rsi_first_row_neutral_witness :
  exists rsi, calculate_rsi [100; 110] 14 = Ok (Fin 50 :: rsi).
Proof.
  apply (rsi_first_row_neutral 100 [110] 14). lia.
Defined.

(** [rsi_no_lookahead] on the first three rows of [crossing_close]. *)
Lemma rsi_no_lookahead_witness :
  calculate_rsi (firstn 3 crossing_close) 14 = Ok (firstn 3 crossing_rsi).
Proof.
  apply (rsi_no_lookahead crossing_close 14 3 crossing_rsi).
  vm_compute. reflexivity.
Defined.

(** [crossings_need_no_threshold_order] with the thresholds swapped. *)
Lemma crossings_need_no_threshold_order_witness :
  exists s,
    nth_error (generate_signals [Fin 80; Fin 60] 30 70) 1 = Some s /\
    (s = 1%Z <-> fgt (Fin 60) 70 && fle (Fin 80) 70 = true) /\
    (s = (-1)%Z <-> flt (Fin 60) 30 && fge (Fin 80) 30 = true) /\
    ~ (fgt (Fin 60) 70 && fle (Fin 80) 70 = true /\
       flt (Fin 60) 30 && fge (Fin 80) 30 = true).
Proof.
  apply (proj2 (crossings_need_no_threshold_order [Fin 80; Fin 60] 30 70) 0%nat
               (Fin 60) (Fin 80)); reflexivity.
Defined.

(** [max_drawdown_range] on the frame of the round trip. *)
Lemma max_drawdown_range_witness :
  exists m q,
    calculate_performance_metrics sqrt_approx round_trip_frame 1000 = Ok m /\
    max_drawdown m = Fin q /\ -1 < q /\ q <= 0.
Proof.
  apply (max_drawdown_range sqrt_approx round_trip_frame 1000).
  - discriminate.
  - discriminate.
  - repeat constructor.
Defined.

(** [single_row_volatility_nan] on a frame of one row. *)
Lemma single_row_volatility_nan_witness :
  exists m,
    calculate_performance_metrics sqrt_approx single_row_frame 1000 = Ok m /\
    volatility m = NaN /\ sharpe m = NaN.
Proof.
  apply (single_row_volatility_nan sqrt_approx single_row_frame 1000).
  - discriminate.
  - discriminate.
  - simpl. lia.
Defined.


(** [display_metrics_resolves_every_label] on the label with a space and a
    full stop. *)
Lemma display_metrics_resolves_every_label_witness :
  In (metric_key "Max. Drawdown") (map fst (metrics_dict round_trip_metrics)) /\
  In ("bh_" ++ metric_key "Max. Drawdown")%string
     (map fst (metrics_dict round_trip_metrics)).
Proof.
  apply (proj1 (display_metrics_resolves_every_label round_trip_metrics)
               "Max. Drawdown"%string).
  solve_in.
Defined.

(** [markers_on_signal_rows] on the buy of the round trip. *)
Lemma markers_on_signal_rows_witness :
  exists r, nth_error round_trip 0 = Some r /\ Close r = 100 /\ Signal r = 1%Z.
Proof.
  apply (proj1 (markers_on_signal_rows round_trip 1000 (1 # 100) round_trip_frame
                                       0 100 eq_refl)).
  vm_compute. left. reflexivity.
Defined.

(** [markers_match_trade_count] on the round trip. *)
Lemma markers_match_trade_count_witness :
  Z.of_nat (length (plot_buy_markers round_trip_frame) +
            length (plot_sell_markers round_trip_frame)) =
  number_of_trades round_trip_metrics.
Proof.
  apply (markers_match_trade_count sqrt_approx round_trip 1000 (1 # 100)
                                   round_trip_frame round_trip_metrics).
  - vm_compute. reflexivity.
  - vm_compute. reflexivity.
Defined.

(** [final_figures_from_ledger] on the round trip. *)
Lemma final_figures_from_ledger_witness :
  exists fin,
    backtest_loop (1 # 100) (initial_ledger 1000) round_trip = Ok fin /\
    portfolio_value round_trip_metrics =
      cash fin + inject_Z (holdings fin) * Close (mkRow 110 (-1)) /\
    fees_paid round_trip_metrics = total_fees fin.
Proof.
  apply (final_figures_from_ledger sqrt_approx round_trip 1000 (1 # 100) 1000
                                   round_trip_frame round_trip_metrics
                                   (mkRow 110 (-1))).
  - vm_compute. reflexivity.
  - vm_compute. reflexivity.
  - reflexivity.
Defined.


(** [unknown_company_propagates] on a name that is not in the menu. *)
Lemma unknown_company_propagates_witness :
  run_backtest int_numeral no_data sqrt_approx unknown_company =
    ([], Raise (KeyError "Acme Corp. (ACME)")).
Proof.
  apply (unknown_company_propagates int_numeral no_data sqrt_approx unknown_company).
  simpl. intro H. repeat (destruct H as [H | H]; [discriminate H|]). exact H.
Defined.

(** [unparsable_entry_rejected] on a capital written in words. *)
Lemma unparsable_entry_rejected_witness :
  exists msg,
    run_backtest int_numeral no_data sqrt_approx unparsable_capital =
      ([showerror "Input Error" msg], Ok tt).
Proof.
  apply (unparsable_entry_rejected int_numeral no_data sqrt_approx unparsable_capital).
  - simpl. tauto.
  - left. reflexivity.
Defined.

(** [accepted_inputs_are_valid] on the default entries. *)
Lemma accepted_inputs_are_valid_witness :
  exists ob os,
    cfg_rsi_overbought default_config = Fin ob /\
    cfg_rsi_oversold default_config = Fin os /\
    0 < os /\ os < ob /\ ob < 100 /\
    fle (cfg_initial_capital default_config) 0 = false /\
    flt (cfg_fee_percentage default_config) 0 = false /\
    In (company_var default_inputs, cfg_ticker default_config) COMPANIES.
Proof.
  apply (accepted_inputs_are_valid int_numeral default_inputs default_config).
  reflexivity.
Defined.

(** [run_backtest_outcomes] on the default entries and [crossing_close]. *)
Lemma run_backtest_outcomes_witness :
  exists rsi,
    calculate_rsi crossing_close 14 = Ok rsi /\
    match backtest_strategy
            (make_rows crossing_close (generate_signals rsi (Fin 70) (Fin 30)))
            10000 (0 / 100) with
    | Ok frame =>
        exists m,
          calculate_performance_metrics sqrt_approx frame 10000 = Ok m /\
          run_backtest int_numeral crossing_data sqrt_approx default_inputs =
            ([call_get_historical_data "JPM" START_DATE END_DATE;
              call_calculate_rsi; call_generate_signals;
              call_backtest_strategy; call_calculate_performance_metrics;
              call_display_metrics m; call_plot_results], Ok tt)
    | Raise e =>
        run_backtest int_numeral crossing_data sqrt_approx default_inputs =
          ([call_get_historical_data "JPM" START_DATE END_DATE;
            call_calculate_rsi; call_generate_signals;
            call_backtest_strategy], Raise e)
    end.
Proof.
  apply (run_backtest_outcomes int_numeral crossing_data sqrt_approx default_inputs
                               default_config 10000 (0 / 100)).
  - reflexivity.
  - reflexivity.
  - reflexivity.
  - discriminate.
Defined.
